(** * cccards: the card deck builder of "Who Programs The Programmers?"

    A shallow embedding of [cccards.py] (class [DeckBuilder]) and the
    properties of its loader, balancer, wildcard step and page renderer.

    Conventions of the embedding:
    - a Python [str] is the [string] of the bytes of its UTF-8 encoding, a
      Python [list] of card texts is a [list string], a Python [int] is a
      [Z];
    - a Python exception is a value of [exn]; code that may raise returns a
      [result];
    - [while] loops run on fuel: [None] means that the loop was still running
      when the fuel ran out;
    - the process-wide random generator is an explicit state [rng];
    - the PDF library is observed through the sequence of calls made on the
      [FPDF] object;
    - a list can hold [capacity] entries at most: building a longer one raises
      [MemoryError].  The lists the program is given exist, hence are within
      that bound. *)

From Stdlib Require Import String Ascii List ZArith NArith QArith Qround Lia Bool Arith.
From Stdlib Require Import Permutation.
Import ListNotations.

Local Open Scope string_scope.
Local Open Scope list_scope.
Local Open Scope nat_scope.

(** ** The fragment of the Python runtime used by the program *)

Module Py.

(** The exception classes the program can meet: built-in ones, [csv.Error]
    and the one of the PDF library. *)
Inductive exn : Type :=
| IndexError
| ValueError
| OSError (class : string)
| TypeError
| OverflowError
| MemoryError
| UnicodeDecodeError
| csv_Error
| FPDFUnicodeEncodingException.

(** The class name of an exception, as Python prints it. *)
Definition exn_name (e : exn) : string :=
  match e with
  | IndexError => "IndexError"
  | ValueError => "ValueError"
  | OSError class => class
  | TypeError => "TypeError"
  | OverflowError => "OverflowError"
  | MemoryError => "MemoryError"
  | UnicodeDecodeError => "UnicodeDecodeError"
  | csv_Error => "Error"
  | FPDFUnicodeEncodingException => "FPDFUnicodeEncodingException"
  end.

Inductive result (A : Type) : Type :=
| Return (a : A)
| Raise (e : exn).

Arguments Return {A} a.
Arguments Raise {A} e.

Definition bind {A B : Type} (m : result A) (k : A -> result B) : result B :=
  match m with
  | Return a => k a
  | Raise e => Raise e
  end.

Definition succeeds {A : Type} (m : result A) : Prop :=
  exists a, m = Return a.

(** What iterating over [csv.reader(f, delimiter=delim)] gives: the records
    read, and the exception that ends the reading if it does not reach the
    end of the file ([csv.Error], [UnicodeDecodeError], ...). *)
Record reading : Type := {
  records : list (list string);
  failure : option exn
}.

(** What the program sees of its environment.
    - [open_csv filename delim]: [open] followed by [csv.reader]; it raises
      when [open] does ([OSError]) or when [csv.reader] refuses the delimiter
      ([TypeError]).
    - [int]: the conversion of a string to an integer ([None] when Python
      raises [ValueError]).
    - [maxsize]: [sys.maxsize], the largest index.
    - [capacity]: the largest number of entries of a list.
    - [output_error name]: what [pdf.output(name)] raises when the file cannot
      be written. *)
Record env : Type := {
  open_csv : string -> string -> result reading;
  int : string -> option Z;
  maxsize : Z;
  capacity : N;
  output_error : string -> option exn
}.

(** [seq[i]] for a non-negative index. *)
Definition getitem {A : Type} (seq : list A) (i : nat) : result A :=
  match nth_error seq i with
  | Some x => Return x
  | None => Raise IndexError
  end.

(** [seq[i] = v]; only used with [i] in range. *)
Fixpoint setitem {A : Type} (seq : list A) (i : nat) (v : A) : list A :=
  match seq, i with
  | [], _ => []
  | _ :: tl, O => v :: tl
  | x :: tl, S i' => x :: setitem tl i' v
  end.

(** An integer that can be used as an index or as a repetition count. *)
Definition index_sized (E : env) (n : Z) : bool :=
  ((- maxsize E - 1 <=? n) && (n <=? maxsize E))%Z.

(** A list of [len] entries can be built. *)
Definition fits (E : env) (len : Z) : bool :=
  (len <=? Z.of_N (capacity E))%Z.

(** [seq * n]: raises [OverflowError] when [n] is not index-sized; otherwise
    the sequence repeated [n] times, empty when [n <= 0]; [MemoryError] when
    the result would be too long. *)
Definition list_mul {A : Type} (E : env) (seq : list A) (n : Z)
  : result (list A) :=
  if index_sized E n then
    if (n <=? 0)%Z then Return []
    else if fits E (Z.of_nat (length seq) * n)
         then Return (List.concat (repeat seq (Z.to_nat n)))
         else Raise MemoryError
  else Raise OverflowError.

(** [l += more] on lists: nothing to do when [more] is empty; otherwise the
    list is resized. *)
Definition iadd {A : Type} (E : env) (l more : list A) : result (list A) :=
  match more with
  | [] => Return l
  | _ :: _ =>
      if fits E (Z.of_nat (length l) + Z.of_nat (length more))
      then Return (l ++ more)
      else Raise MemoryError
  end.

(** [seq[lo:hi]] for non-negative bounds; out-of-range bounds are clamped. *)
Definition slice {A : Type} (seq : list A) (lo hi : nat) : list A :=
  firstn (hi - lo) (skipn lo seq).

(** [a == b] on lists of strings: equality of contents, not of identity. *)
Fixpoint list_eqb (a b : list string) : bool :=
  match a, b with
  | [], [] => true
  | x :: a', y :: b' => String.eqb x y && list_eqb a' b'
  | _, _ => false
  end.

(** Truth value of a list: non-empty. *)
Definition truthy {A : Type} (l : list A) : bool :=
  match l with
  | [] => false
  | _ :: _ => true
  end.

(** [text.encode("latin-1")] succeeds: every character is below U+0100, that
    is, every byte of the UTF-8 encoding is an ASCII byte or belongs to a
    two-byte sequence led by C2 or C3. *)
Fixpoint latin1 (text : string) : bool :=
  match text with
  | EmptyString => true
  | String c tl =>
      let n := nat_of_ascii c in
      if n <? 128 then latin1 tl
      else if (n =? 194) || (n =? 195) then
        match tl with
        | String _ tl' => latin1 tl'
        | EmptyString => false
        end
      else false
  end.

(** *** The random module

    The generator state is the stream of raw draws still to come;
    [randbelow n] consumes one draw and reduces it below [n]. *)
Definition rng : Type := nat -> nat.

Definition randbelow (g : rng) (n : nat) : nat * rng :=
  (g 0 mod n, fun k => g (S k)).

(** [random.choice(seq)]: raises [IndexError] on an empty sequence. *)
Definition choice {A : Type} (g : rng) (seq : list A) : result (A * rng) :=
  match seq with
  | [] => Raise IndexError
  | _ :: _ =>
      let (i, g') := randbelow g (length seq) in
      bind (getitem seq i) (fun x => Return (x, g'))
  end.

(** [x[i], x[j] = x[j], x[i]] *)
Definition swap {A : Type} (x : list A) (i j : nat) : list A :=
  match nth_error x j, nth_error x i with
  | Some xj, Some xi => setitem (setitem x i xj) j xi
  | _, _ => x
  end.

(** The body of [random.shuffle]:
    [for i in reversed(range(1, len(x))): j = randbelow(i + 1); swap]. *)
Fixpoint shuffle_from {A : Type} (i : nat) (g : rng) (x : list A)
  : list A * rng :=
  match i with
  | O => (x, g)
  | S i' =>
      let (j, g') := randbelow g (S i) in
      shuffle_from i' g' (swap x i j)
  end.

Definition shuffle {A : Type} (g : rng) (x : list A) : list A * rng :=
  shuffle_from (length x - 1) g x.

(** *** Loops

    [while cond: body] on fuel.  An exception raised by the body ends the
    loop. *)
Fixpoint while {S : Type} (cond : S -> bool) (body : S -> result S)
    (fuel : nat) (s : S) : option (result S) :=
  match fuel with
  | O => None
  | S fuel' =>
      if cond s then
        match body s with
        | Return s' => while cond body fuel' s'
        | Raise e => Some (Raise e)
        end
      else Some (Return s)
  end.

(** [for x in seq: acc = body(acc, x)], where the body may raise. *)
Fixpoint for_each {S X : Type} (body : S -> X -> result S)
    (seq : list X) (acc : S) : result S :=
  match seq with
  | [] => Return acc
  | x :: tl => bind (body acc x) (for_each body tl)
  end.

End Py.

Import Py.

Notation "x <- m ;; k" := (bind m (fun x => k))
  (at level 61, m at next level, right associativity).

(** Sequencing of computations that contain a loop on fuel. *)
Definition bind_run {A B : Type} (m : option (result A))
    (k : A -> option (result B)) : option (result B) :=
  match m with
  | Some (Return a) => k a
  | Some (Raise e) => Some (Raise e)
  | None => None
  end.

Notation "x <~ m ;; k" := (bind_run m (fun x => k))
  (at level 61, m at next level, right associativity).

(** ** The program *)

Module DeckBuilder.

Definition CARDS_PER_PAGE : nat := 28.
Definition CARD_WIDTH : Z := 48.
Definition CARD_HEIGHT : Z := 40.

(** The two attributes of a [DeckBuilder] object. *)
Record t : Type := {
  front_cards : list string;
  back_cards : list string
}.

Section WithEnv.

Variable E : env.

Definition to_int (s : string) : result Z :=
  match int E s with
  | Some n => Return n
  | None => Raise ValueError
  end.

(** [cards += [row[0]] * int(row[1])] *)
Definition load_row (cards : list string) (row : list string)
  : result (list string) :=
  text <- getitem row 0 ;;
  field <- getitem row 1 ;;
  weight <- to_int field ;;
  more <- list_mul E [text] weight ;;
  iadd E cards more.

Definition load_csv (filename delim : string) : result (list string) :=
  data <- open_csv E filename delim ;;
  cards <- for_each load_row (records data) [] ;;
  match failure data with
  | Some e => Raise e
  | None => Return cards
  end.

(** [while len(front) > len(back): back.append(random.choice(back))] *)
Definition back_is_shorter (s : rng * t) : bool :=
  length (back_cards (snd s)) <? length (front_cards (snd s)).

Definition grow_back (s : rng * t) : result (rng * t) :=
  let (g, self) := s in
  c <- choice g (back_cards self) ;;
  Return (snd c, {| front_cards := front_cards self;
                    back_cards := back_cards self ++ [fst c] |}).

(** [while len(back) > len(front): front.append(random.choice(front))] *)
Definition front_is_shorter (s : rng * t) : bool :=
  length (front_cards (snd s)) <? length (back_cards (snd s)).

Definition grow_front (s : rng * t) : result (rng * t) :=
  let (g, self) := s in
  c <- choice g (front_cards self) ;;
  Return (snd c, {| front_cards := front_cards self ++ [fst c];
                    back_cards := back_cards self |}).

Definition balance (fuel : nat) (g : rng) (self : t)
  : option (result (rng * t)) :=
  s <~ while back_is_shorter grow_back fuel (g, self) ;;
  while front_is_shorter grow_front fuel s.

Definition shuffle (g : rng) (self : t) : rng * t :=
  let (front, g1) := Py.shuffle g (front_cards self) in
  let (back, g2) := Py.shuffle g1 (back_cards self) in
  (g2, {| front_cards := front; back_cards := back |}).

(** The wildcard entry. *)
Definition wildcard : string := "*".

(** [self.back_cards += ["*"] * wildcards] *)
Definition add_back_wildcards (wildcards : Z) (self : t) : result t :=
  more <- list_mul E [wildcard] wildcards ;;
  back <- iadd E (back_cards self) more ;;
  Return {| front_cards := front_cards self; back_cards := back |}.

(** [self.front_cards += ["*"] * wildcards] *)
Definition add_front_wildcards (wildcards : Z) (self : t) : result t :=
  more <- list_mul E [wildcard] wildcards ;;
  front <- iadd E (front_cards self) more ;;
  Return {| front_cards := front; back_cards := back_cards self |}.

(** The constructor.  [back_csv] is [None] or a file name; the test
    [if back_csv] also fails on the empty name. *)
Definition given (back_csv : option string) : option string :=
  match back_csv with
  | Some "" => None
  | other => other
  end.

Definition __init__ (fuel : nat) (g : rng) (front_csv : string)
    (back_csv : option string) (wildcards : Z) (delimiter : string)
  : option (result (rng * t)) :=
  front <~ Some (load_csv front_csv delimiter) ;;
  match given back_csv with
  | Some back_csv =>
      back <~ Some (load_csv back_csv delimiter) ;;
      s <~ balance fuel g {| front_cards := front; back_cards := back |} ;;
      let (g', self) := shuffle (fst s) (snd s) in
      self <~ Some (add_back_wildcards wildcards self) ;;
      self <~ Some (add_front_wildcards wildcards self) ;;
      Some (Return (g', self))
  | None =>
      let self := {| front_cards := front; back_cards := [] |} in
      self <~ Some (add_front_wildcards wildcards self) ;;
      Some (Return (g, self))
  end.

End WithEnv.

(** *** Rendering

    The calls made on the [FPDF] object, in order.  Every [cell] call has
    [h=None] and [align=Align.C]; they are left out. *)
Inductive pdf_call : Type :=
| add_page
| ln (h : Z)
| set_font (family style : string) (size : Z)
| set_x (x : Z)
| cell (w : Z) (text : string)
| output (name : string).

(** The variable [side] refers to one of the two lists of the object. *)
Inductive side_ref : Type := Front | Back.

Definition deref (self : t) (side : side_ref) : list string :=
  match side with
  | Front => front_cards self
  | Back => back_cards self
  end.

(** [math.ceil(max(len(front) / 28, len(back) / 28))]; true division is
    taken exactly, which is what floating point gives for any length a
    list can have. *)
Definition true_div (n d : nat) : Q :=
  Qmake (Z.of_nat n) (Pos.of_nat d).

Definition max (a b : Q) : Q :=
  if Qle_bool b a then a else b.

Definition total_pages (self : t) : Z :=
  Qceiling (max (true_div (length (front_cards self)) CARDS_PER_PAGE)
                (true_div (length (back_cards self)) CARDS_PER_PAGE)).

(** The state of the inner [for] loop: the document so far, [cell] and
    [card_in_row]. *)
Definition row_state : Type := list pdf_call * Z * Z.

(** The body of the inner loop.  With the core font helvetica [pdf.cell]
    encodes the text in latin-1 and raises when it cannot. *)
Definition render_card (self : t) (side : side_ref) (st : row_state)
    (card : string) : result row_state :=
  let '(pdf, cell_no, card_in_row) := st in
  let pdf :=
    if String.eqb card "*"
    then pdf ++ [set_font "helvetica" "B" 32]
    else pdf ++ [set_font "helvetica" "B" 14] in
  let pdf :=
    if list_eqb (deref self side) (back_cards self)
    then pdf ++ [set_x (- CARD_WIDTH * card_in_row - 9)]
    else pdf in
  if latin1 card then
    let pdf := pdf ++ [cell CARD_WIDTH card] in
    let cell_no := (cell_no + 1)%Z in
    let card_in_row := (card_in_row + 1)%Z in
    if (cell_no mod 4 =? 0)%Z
    then Return (pdf ++ [ln CARD_HEIGHT], cell_no, 1%Z)
    else Return (pdf, cell_no, card_in_row)
  else Raise FPDFUnicodeEncodingException.

(** The state of the [while] loop of [save]. *)
Record save_state : Type := {
  pdf : list pdf_call;
  page : nat;
  side : side_ref
}.

Definition more_pages (self : t) (s : save_state) : bool :=
  (Z.of_nat (page s) <? total_pages self)%Z.

Definition render_side (self : t) (s : save_state) : result save_state :=
  let doc := pdf s ++ [add_page; ln 10] in
  let cards := slice (deref self (side s))
                     (page s * CARDS_PER_PAGE) ((page s + 1) * CARDS_PER_PAGE) in
  st <- for_each (render_card self (side s)) cards (doc, 0%Z, 1%Z) ;;
  let '(doc, _, _) := st in
  if truthy (back_cards self) && list_eqb (deref self (side s)) (front_cards self)
  then Return {| pdf := doc; page := page s; side := Back |}
  else Return {| pdf := doc; page := page s + 1; side := Front |}.

(** The result is the sequence of calls made, [output] being the last. *)
Definition save (E : env) (fuel : nat) (self : t) (filename : string)
  : option (result (list pdf_call)) :=
  s <~ while (more_pages self) (render_side self) fuel
         {| pdf := []; page := 0; side := Front |} ;;
  match output_error E filename with
  | Some e => Some (Raise e)
  | None => Some (Return (pdf s ++ [output filename]))
  end.

End DeckBuilder.

(** ** The script

    The block under [if __name__ == "__main__"]: [arguments] is the
    dictionary that [docopt] returns; options are strings (a default value
    when the option is absent), [BACK_CSV] is [None] when not given. *)
Record arguments : Type := {
  FRONT_CSV : string;
  BACK_CSV : option string;
  opt_wildcards : string;
  opt_delimiter : string;
  opt_output : string
}.

(** [deck = DeckBuilder(FRONT_CSV, BACK_CSV, int(--wildcards), --delimiter)]
    then [deck.save(--output)].  The result is the document written. *)
Definition main (E : env) (fuel : nat) (g : rng) (args : arguments)
  : option (result (list DeckBuilder.pdf_call)) :=
  wildcards <~ Some (DeckBuilder.to_int E (opt_wildcards args)) ;;
  deck <~ DeckBuilder.__init__ E fuel g (FRONT_CSV args) (BACK_CSV args)
            wildcards (opt_delimiter args) ;;
  DeckBuilder.save E fuel (snd deck) (opt_output args).

(** ** A concrete environment

    The library functions as CPython 3.11 has them on a 64-bit system, over a
    file system with a few files: [int] on a [str] (Unicode 14.0), [open] in
    text mode with universal newlines, and [csv.reader] with the default
    dialect but for the delimiter. *)

Module Example.

(** *** Characters

    A character of a [str] is the string of the bytes of its encoding. *)

Definition width (lead : ascii) : nat :=
  let n := nat_of_ascii lead in
  if n <? 192 then 1 else if n <? 224 then 2 else if n <? 240 then 3 else 4.

Fixpoint chars_from (pending : nat) (cur : string) (s : string)
  : list string :=
  match s with
  | EmptyString => match cur with EmptyString => [] | _ => [cur] end
  | String b s' =>
      let '(cur', more) :=
        match pending with
        | 0 => (String b EmptyString, width b - 1)
        | S k => ((cur ++ String b EmptyString)%string, k)
        end in
      match more with
      | 0 => cur' :: chars_from 0 EmptyString s'
      | S _ => chars_from more cur' s'
      end
  end.

Definition chars (s : string) : list string := chars_from 0 EmptyString s.

Definition byte (c : ascii) : N := N_of_ascii c.

Definition code_point (c : string) : N :=
  match c with
  | String a EmptyString => byte a
  | String a (String b EmptyString) =>
      (byte a - 192) * 64 + (byte b - 128)
  | String a (String b (String c EmptyString)) =>
      ((byte a - 224) * 64 + (byte b - 128)) * 64 + (byte c - 128)
  | String a (String b (String c (String d EmptyString))) =>
      (((byte a - 240) * 64 + (byte b - 128)) * 64 + (byte c - 128)) * 64
      + (byte d - 128)
  | _ => 0
  end%N.

(** *** [int(s)] for a [str] *)

(** The characters above 126 that [str.isspace] accepts. *)
Definition unicode_space (cp : N) : bool :=
  existsb (N.eqb cp) [133; 160; 5760; 8232; 8233; 8239; 8287; 12288]%N
  || ((8192 <=? cp) && (cp <=? 8202))%N.

(** The first character of each run of the ten decimal digits of a script,
    above the ASCII ones. *)
Definition decimal_zeros : list N :=
  [1632; 1776; 1984; 2406; 2534; 2662; 2790; 2918; 3046; 3174; 3302; 3430;
   3558; 3664; 3792; 3872; 4160; 4240; 6112; 6160; 6470; 6608; 6784; 6800;
   6992; 7088; 7232; 7248; 42528; 43216; 43264; 43472; 43504; 43600; 44016;
   65296; 66720; 68912; 69734; 69872; 69942; 70096; 70384; 70736; 70864;
   71248; 71360; 71472; 71904; 72016; 72784; 73040; 73120; 92768; 92864;
   93008; 120782; 120792; 120802; 120812; 120822; 123200; 123632; 125264;
   130032]%N.

Definition decimal (cp : N) : option N :=
  option_map (N.sub cp)
    (find (fun zero => (zero <=? cp) && (cp <? zero + 10))%N decimal_zeros).

(** Spaces become the blank and decimal digits the ASCII digits; a character
    that is neither, above 126, makes the literal invalid. *)
Definition to_ascii (c : string) : option ascii :=
  let cp := code_point c in
  if (cp <? 127)%N then Some (ascii_of_N cp)
  else if unicode_space cp then Some " "%char
  else option_map (fun d => ascii_of_N (48 + d)) (decimal cp).

Fixpoint transform (cs : list string) : option string :=
  match cs with
  | [] => Some EmptyString
  | c :: tl =>
      match to_ascii c, transform tl with
      | Some a, Some s => Some (String a s)
      | _, _ => None
      end
  end.

Definition is_space (c : ascii) : bool :=
  let n := nat_of_ascii c in
  ((9 <=? n) && (n <=? 13)) || (n =? 32).

Definition digit (c : ascii) : option Z :=
  let n := nat_of_ascii c in
  if (48 <=? n) && (n <=? 57) then Some (Z.of_nat (n - 48)) else None.

Fixpoint lstrip (s : string) : string :=
  match s with
  | String c s' => if is_space c then lstrip s' else s
  | EmptyString => EmptyString
  end.

Fixpoint rstrip (s : string) : string :=
  match s with
  | EmptyString => EmptyString
  | String c s' =>
      match rstrip s' with
      | EmptyString => if is_space c then EmptyString else String c EmptyString
      | r => String c r
      end
  end.

(** [after_digit] tells whether the previous character was a digit: an
    underscore is accepted only there, and the literal must end there. *)
Fixpoint digits (acc : Z) (after_digit : bool) (s : string) : option Z :=
  match s with
  | EmptyString => if after_digit then Some acc else None
  | String c s' =>
      match digit c with
      | Some d => digits (10 * acc + d) true s'
      | None =>
          if Ascii.eqb c "_" && after_digit then digits acc false s' else None
      end
  end.

Fixpoint count_digits (s : string) : nat :=
  match s with
  | EmptyString => 0
  | String c s' =>
      match digit c with
      | Some _ => S (count_digits s')
      | None => count_digits s'
      end
  end.

(** [None] stands for [ValueError]: a literal that is not a decimal integer,
    or one of more than 4300 digits. *)
Definition int (s : string) : option Z :=
  match transform (chars s) with
  | None => None
  | Some literal =>
      let body := rstrip (lstrip literal) in
      if 4300 <? count_digits body then None
      else match body with
           | String "+" r => digits 0 false r
           | String "-" r => option_map Z.opp (digits 0 false r)
           | r => digits 0 false r
           end
  end.

(** *** [open(filename, 'r', encoding='utf-8')] and its lines *)

Definition lf : string := String "010" EmptyString.
Definition cr : string := String "013" EmptyString.

(** Universal newlines: a carriage return, with the line feed that follows
    it if there is one, is read as a line feed. *)
Fixpoint universal_newlines (s : string) : string :=
  match s with
  | EmptyString => EmptyString
  | String c s' =>
      if Ascii.eqb c "013" then
        match s' with
        | String d s'' =>
            if Ascii.eqb d "010" then String "010" (universal_newlines s'')
            else String "010" (universal_newlines s')
        | EmptyString => lf
        end
      else String c (universal_newlines s')
  end.

(** What the reader is fed: the characters of each line, then the end of the
    line. *)
Inductive input : Type :=
| Char (c : string)
| EOL.

Fixpoint feed (in_line : bool) (cs : list string) : list input :=
  match cs with
  | [] => if in_line then [EOL] else []
  | c :: tl =>
      if String.eqb c lf then Char c :: EOL :: feed false tl
      else Char c :: feed true tl
  end.

(** *** [csv.reader(f, delimiter=delim)]

    The parser of the [csv] module, for the dialect of the program: the
    double quote as quote character, doubled inside a quoted field, no escape character,
    initial spaces kept, not strict. *)

Inductive parser_state : Type :=
| START_RECORD
| START_FIELD
| IN_FIELD
| IN_QUOTED_FIELD
| QUOTE_IN_QUOTED_FIELD
| EAT_CRNL.

Record parser : Type := {
  state : parser_state;
  fields : list string;
  field : string;
  field_len : N
}.

Definition quotechar : string := String "034" EmptyString.
Definition field_limit : N := 131072.

Definition parse_reset : parser :=
  {| state := START_RECORD; fields := []; field := EmptyString;
     field_len := 0 |}.

Definition goto (st : parser_state) (p : parser) : parser :=
  {| state := st; fields := fields p; field := field p;
     field_len := field_len p |}.

Definition parse_save_field (st : parser_state) (p : parser) : parser :=
  {| state := st; fields := fields p ++ [field p]; field := EmptyString;
     field_len := 0 |}.

Definition parse_add_char (st : parser_state) (c : string) (p : parser)
  : result parser :=
  if (field_limit <=? field_len p)%N then Raise csv_Error
  else Return {| state := st; fields := fields p;
                 field := (field p ++ c)%string;
                 field_len := field_len p + 1 |}.

Definition is_newline (c : string) : bool :=
  String.eqb c lf || String.eqb c cr.

Definition parse_process_char (delimiter : string) (p : parser) (c : input)
  : result parser :=
  let start_field :=
    match c with
    | EOL => Return (parse_save_field START_RECORD p)
    | Char ch =>
        if is_newline ch then Return (parse_save_field EAT_CRNL p)
        else if String.eqb ch quotechar then Return (goto IN_QUOTED_FIELD p)
        else if String.eqb ch delimiter
             then Return (parse_save_field START_FIELD p)
             else parse_add_char IN_FIELD ch p
    end in
  match state p with
  | START_RECORD =>
      match c with
      | EOL => Return p
      | Char ch =>
          if is_newline ch then Return (goto EAT_CRNL p) else start_field
      end
  | START_FIELD => start_field
  | IN_FIELD =>
      match c with
      | EOL => Return (parse_save_field START_RECORD p)
      | Char ch =>
          if is_newline ch then Return (parse_save_field EAT_CRNL p)
          else if String.eqb ch delimiter
               then Return (parse_save_field START_FIELD p)
               else parse_add_char IN_FIELD ch p
      end
  | IN_QUOTED_FIELD =>
      match c with
      | EOL => Return p
      | Char ch =>
          if String.eqb ch quotechar
          then Return (goto QUOTE_IN_QUOTED_FIELD p)
          else parse_add_char IN_QUOTED_FIELD ch p
      end
  | QUOTE_IN_QUOTED_FIELD =>
      match c with
      | EOL => Return (parse_save_field START_RECORD p)
      | Char ch =>
          if String.eqb ch quotechar then parse_add_char IN_QUOTED_FIELD ch p
          else if String.eqb ch delimiter
               then Return (parse_save_field START_FIELD p)
               else if is_newline ch
                    then Return (parse_save_field EAT_CRNL p)
                    else parse_add_char IN_FIELD ch p
      end
  | EAT_CRNL =>
      match c with
      | EOL => Return (goto START_RECORD p)
      | Char ch => if is_newline ch then Return p else Raise csv_Error
      end
  end.

(** The records the reader yields: one each time the end of a line leaves the
    parser at the start of a record; at the end of the file, the record that
    an open quoted field leaves unfinished. *)
Fixpoint reader (delimiter : string) (p : parser) (done : list (list string))
    (inputs : list input) : reading :=
  match inputs with
  | [] =>
      if (0 <? field_len p)%N
         || match state p with IN_QUOTED_FIELD => true | _ => false end
      then {| records := done ++ [fields p ++ [field p]]; failure := None |}
      else {| records := done; failure := None |}
  | c :: tl =>
      match parse_process_char delimiter p c with
      | Raise e => {| records := done; failure := Some e |}
      | Return p' =>
          match c, state p' with
          | EOL, START_RECORD =>
              reader delimiter parse_reset (done ++ [fields p']) tl
          | _, _ => reader delimiter p' done tl
          end
      end
  end.

(** *** The files *)

Fixpoint unlines (lines : list string) : string :=
  match lines with
  | [] => EmptyString
  | line :: tl => (line ++ lf ++ unlines tl)%string
  end.

(** The text of each file. *)
Definition files : list (string * string) :=
  [ ("front.csv", unlines ["A,2"; "B,1"]);
    ("back.csv", unlines ["x,1"; "y,0"; "z,1"]);
    ("extra.csv", unlines ["A,1,spare"]);
    ("short.csv", unlines ["A,1"; "B"]);
    ("text.csv", unlines ["A,many"]);
    ("minus.csv", unlines ["A,2"; "B,-3"; "C,1"]);
    ("star.csv", unlines ["*,1"; "A,1"]);
    ("one.csv", unlines ["A,1"]);
    ("empty.csv", EmptyString);
    ("huge.csv", unlines ["A,9223372036854775808"]);
    ("below.csv", unlines ["B,-9223372036854775809"]) ].

Fixpoint read (files : list (string * string)) (name : string)
  : option string :=
  match files with
  | [] => None
  | (n, text) :: tl => if String.eqb n name then Some text else read tl name
  end.

(** A missing file makes [open] raise; a delimiter that is not one character
    makes [csv.reader] raise; then the file is read record by record. *)
Definition open_csv (name delim : string) : result reading :=
  match read files name with
  | None => Raise (OSError "FileNotFoundError")
  | Some text =>
      match chars delim with
      | [delimiter] =>
          Return (reader delimiter parse_reset []
                    (feed false (chars (universal_newlines text))))
      | _ => Raise TypeError
      end
  end.

(** A 64-bit interpreter with room for lists of a hundred million entries, on
    a system where every file name but the empty one can be written. *)
Definition E : env :=
  {| Py.open_csv := open_csv;
     Py.int := int;
     maxsize := 9223372036854775807;
     capacity := 100000000;
     output_error := fun name =>
                       match name with
                       | EmptyString => Some (OSError "FileNotFoundError")
                       | _ => None
                       end |}.

(** A generator whose raw draws are 0, 1, 2, ... *)
Definition counter : rng := fun k => k.

End Example.

(** ** Vocabulary of the statements *)

(** The weight of a record, when it has a second field that is an integer. *)
Definition weight_of (E : env) (row : list string) : option Z :=
  match row with
  | _ :: field :: _ => int E field
  | _ => None
  end.

Definition row_text (row : list string) : string := nth 0 row "".

Definition row_weight (E : env) (row : list string) : Z :=
  match weight_of E row with
  | Some w => w
  | None => 0%Z
  end.

(** The text of a record, once per unit of weight. *)
Definition copies (E : env) (row : list string) : list string :=
  repeat (row_text row) (Z.to_nat (row_weight E row)).

(** The deck of a file: the copies of each record, in file order. *)
Definition expand (E : env) (rows : list (list string)) : list string :=
  flat_map (copies E) rows.

Definition sum (l : list Z) : Z := fold_right Z.add 0%Z l.

(** The number of cards the records ask for: a negative weight asks for
    none. *)
Definition cards_asked (E : env) (rows : list (list string)) : Z :=
  sum (map (fun row => Z.max 0 (row_weight E row)) rows).

(** A record the loader can use: it has a second field, an integer that is
    index-sized. *)
Definition usable (E : env) (row : list string) : Prop :=
  exists w, weight_of E row = Some w /\ index_sized E w = true.

(** A record the loader cannot read: fewer than two fields, or a second field
    that is not an integer. *)
Definition malformed (E : env) (row : list string) : Prop :=
  weight_of E row = None.

(** The exception a malformed record raises. *)
Definition malformed_error (row : list string) : exn :=
  if length row <? 2 then IndexError else ValueError.

(** [grown_from deck deck']: [deck'] is [deck] after some number of steps,
    each of which appends an entry of the deck as it is at that step. *)
Inductive grown_from (deck : list string) : list string -> Prop :=
| grown_none : grown_from deck deck
| grown_step (d : list string) (x : string) :
    grown_from deck d -> In x d -> grown_from deck (d ++ [x]).

(** The invariants of the two loops of [balance].  In the first the front
    deck is not touched, the back deck grows from its own cards and never gets
    longer than the longer of the two decks at the start; in the second the
    roles are exchanged. *)
Definition back_grows (front back : list string) (s : rng * DeckBuilder.t)
  : Prop :=
  DeckBuilder.front_cards (snd s) = front /\
  grown_from back (DeckBuilder.back_cards (snd s)) /\
  length (DeckBuilder.back_cards (snd s))
    <= Nat.max (length front) (length back).

Definition front_grows (front back : list string) (s : rng * DeckBuilder.t)
  : Prop :=
  DeckBuilder.back_cards (snd s) = back /\
  grown_from front (DeckBuilder.front_cards (snd s)) /\
  length (DeckBuilder.front_cards (snd s)) <= length back.

(** *** The document, page by page

    What the renderer is meant to put on a page, card by card: [k] is the
    position of the card on its page, counted from 0. *)
Definition font_size (card : string) : Z :=
  if String.eqb card "*" then 32%Z else 14%Z.

Definition card_calls (mirror : bool) (k : nat) (card : string)
  : list DeckBuilder.pdf_call :=
  [DeckBuilder.set_font "helvetica" "B" (font_size card)]
  ++ (if mirror
      then [DeckBuilder.set_x (- 48 * (Z.of_nat (k mod 4) + 1) - 9)]
      else [])
  ++ [DeckBuilder.cell 48 card]
  ++ (if k mod 4 =? 3 then [DeckBuilder.ln 40] else []).

Fixpoint cards_calls (mirror : bool) (k : nat) (cards : list string)
  : list DeckBuilder.pdf_call :=
  match cards with
  | [] => []
  | card :: tl => card_calls mirror k card ++ cards_calls mirror (S k) tl
  end.

Definition page_calls (mirror : bool) (cards : list string)
  : list DeckBuilder.pdf_call :=
  DeckBuilder.add_page :: DeckBuilder.ln 10 :: cards_calls mirror 0 cards.

(** The cards of page [p] of a deck. *)
Definition page_of (deck : list string) (p : nat) : list string :=
  firstn 28 (skipn (28 * p) deck).

(** Page [p] of the front deck, then page [p] of the back deck if there is
    one. *)
Definition sheet (self : DeckBuilder.t) (p : nat)
  : list DeckBuilder.pdf_call :=
  page_calls false (page_of (DeckBuilder.front_cards self) p)
  ++ match DeckBuilder.back_cards self with
     | [] => []
     | _ :: _ => page_calls true (page_of (DeckBuilder.back_cards self) p)
     end.

(** [ceil(max(len(front), len(back)) / 28)] *)
Definition page_count (self : DeckBuilder.t) : nat :=
  (Nat.max (length (DeckBuilder.front_cards self))
           (length (DeckBuilder.back_cards self)) + 27) / 28.

Definition document (self : DeckBuilder.t) (filename : string)
  : list DeckBuilder.pdf_call :=
  flat_map (sheet self) (seq 0 (page_count self))
  ++ [DeckBuilder.output filename].

(** Every card of a deck can be drawn with the core font. *)
Definition drawable (deck : list string) : Prop :=
  Forall (fun card => latin1 card = true) deck.

(** The texts of the cells of a document, in the order they are drawn. *)
Fixpoint cell_texts (doc : list DeckBuilder.pdf_call) : list string :=
  match doc with
  | [] => []
  | DeckBuilder.cell _ text :: tl => text :: cell_texts tl
  | _ :: tl => cell_texts tl
  end.

(** The number of pages of a document. *)
Fixpoint pages_added (doc : list DeckBuilder.pdf_call) : nat :=
  match doc with
  | [] => 0
  | DeckBuilder.add_page :: tl => S (pages_added tl)
  | _ :: tl => pages_added tl
  end.

(** How many cards of text [t] the records ask for. *)
Definition asked_for (E : env) (t : string) (rows : list (list string))
  : nat :=
  list_sum (map (fun row => if string_dec (row_text row) t
                            then Z.to_nat (row_weight E row) else 0) rows).

(** ** The loader *)

Section LoaderFacts.

Variable E : env.

Lemma concat_repeat_singleton (A : Type) (x : A) (k : nat) :
  List.concat (repeat [x] k) = repeat x k.
Proof.
  induction k as [|k IH]; simpl; [reflexivity|]. now rewrite IH.
Qed.

(** Repeating a one-entry list, then appending: the good case. *)
Lemma append_copies (cards : list string) (x : string) (n : Z) :
  index_sized E n = true ->
  (Z.of_nat (length cards) + Z.max 0 n <= Z.of_N (capacity E))%Z ->
  (more <- list_mul E [x] n ;; iadd E cards more) =
  Return (cards ++ repeat x (Z.to_nat n)).
Proof.
  intros Hidx Hfit. unfold list_mul. rewrite Hidx.
  destruct (Z.leb_spec n 0) as [Hn|Hn].
  - simpl. replace (Z.to_nat n) with 0 by lia. simpl.
    now rewrite app_nil_r.
  - unfold fits. simpl length.
    replace (Z.of_nat 1 * n <=? Z.of_N (capacity E))%Z with true
      by (symmetry; apply Z.leb_le; lia).
    rewrite concat_repeat_singleton. simpl. unfold iadd.
    destruct (repeat x (Z.to_nat n)) as [|y more] eqn:Hrep.
    + apply (f_equal (@length string)) in Hrep.
      rewrite repeat_length in Hrep. simpl in Hrep. lia.
    + rewrite <- Hrep. unfold fits. rewrite repeat_length.
      replace (Z.of_nat (length cards) + Z.of_nat (Z.to_nat n)
                 <=? Z.of_N (capacity E))%Z with true
        by (symmetry; apply Z.leb_le; lia).
      reflexivity.
Qed.

(** A count that is not index-sized stops the statement. *)
Lemma list_mul_overflow (A : Type) (seq : list A) (n : Z) :
  index_sized E n = false -> list_mul E seq n = Raise OverflowError.
Proof. intros H. unfold list_mul. now rewrite H. Qed.

(** Whatever [seq * n] returns is made of copies of the entries. *)
Lemma list_mul_returns (x : string) (n : Z) (more : list string) :
  list_mul E [x] n = Return more ->
  more = repeat x (Z.to_nat n) /\ index_sized E n = true.
Proof.
  unfold list_mul. destruct (index_sized E n); [|discriminate].
  destruct (Z.leb_spec n 0) as [Hn|Hn].
  - intros H. injection H as <-. replace (Z.to_nat n) with 0 by lia.
    now split.
  - destruct (fits E _); [|discriminate]. intros H. injection H as <-.
    now rewrite concat_repeat_singleton.
Qed.

Lemma iadd_returns (A : Type) (l more l' : list A) :
  iadd E l more = Return l' -> l' = l ++ more.
Proof.
  unfold iadd. destruct more as [|y more].
  - intros H. injection H as <-. now rewrite app_nil_r.
  - destruct (fits E _); [|discriminate]. intros H. now injection H as <-.
Qed.

(** One record: the fields are read first, then the weight is converted. *)
Lemma load_row_cases (cards row : list string) :
  DeckBuilder.load_row E cards row =
  match row with
  | [] | [_] => Raise IndexError
  | text :: field :: _ =>
      match int E field with
      | None => Raise ValueError
      | Some w => more <- list_mul E [text] w ;; iadd E cards more
      end
  end.
Proof.
  unfold DeckBuilder.load_row, DeckBuilder.to_int.
  destruct row as [|text [|field rest]]; simpl; try reflexivity.
  destruct (int E field) as [w|]; reflexivity.
Qed.

Lemma load_row_malformed (cards row : list string) :
  malformed E row ->
  DeckBuilder.load_row E cards row = Raise (malformed_error row).
Proof.
  unfold malformed, malformed_error, weight_of. intros Hbad.
  rewrite load_row_cases.
  destruct row as [|text [|field rest]]; simpl; try reflexivity.
  now rewrite Hbad.
Qed.

(** When a record loads, it was well formed and added its copies. *)
Lemma load_row_returns (cards row cards' : list string) :
  DeckBuilder.load_row E cards row = Return cards' ->
  usable E row /\ cards' = cards ++ copies E row.
Proof.
  rewrite load_row_cases. unfold usable, copies, row_weight, row_text,
    weight_of.
  destruct row as [|text [|field rest]]; simpl; try discriminate.
  destruct (int E field) as [w|]; [|discriminate].
  destruct (list_mul E [text] w) as [more|e] eqn:Hmul; simpl;
    [|discriminate].
  intros Hadd. apply list_mul_returns in Hmul as [-> Hidx].
  apply iadd_returns in Hadd. split; [|exact Hadd]. now exists w.
Qed.

Lemma load_row_usable (cards row : list string) :
  usable E row ->
  (Z.of_nat (length cards) + Z.max 0 (row_weight E row)
     <= Z.of_N (capacity E))%Z ->
  DeckBuilder.load_row E cards row = Return (cards ++ copies E row).
Proof.
  intros [w [Hw Hidx]] Hfit. rewrite load_row_cases.
  unfold copies, row_weight, row_text in *. rewrite Hw in *.
  destruct row as [|text [|field rest]]; simpl in Hw; try discriminate.
  rewrite Hw. simpl. now apply append_copies.
Qed.

Lemma length_expand (rows : list (list string)) :
  Z.of_nat (length (expand E rows)) = cards_asked E rows.
Proof.
  unfold cards_asked. induction rows as [|row rows IH]; simpl.
  - reflexivity.
  - rewrite length_app, Nat2Z.inj_add, IH. unfold copies at 1.
    rewrite repeat_length. lia.
Qed.

Lemma cards_asked_nonneg (rows : list (list string)) :
  (0 <= cards_asked E rows)%Z.
Proof. rewrite <- length_expand. lia. Qed.

(** The loop over records that are all usable, when the deck fits. *)
Lemma for_each_load_row (rows : list (list string)) :
  forall cards,
    Forall (usable E) rows ->
    (Z.of_nat (length cards) + cards_asked E rows <= Z.of_N (capacity E))%Z ->
    for_each (DeckBuilder.load_row E) rows cards =
    Return (cards ++ expand E rows).
Proof.
  induction rows as [|row rows IH]; intros cards Hrows Hfit; simpl.
  - now rewrite app_nil_r.
  - inversion Hrows as [|? ? Hrow Hrest]. subst.
    unfold cards_asked in Hfit. simpl in Hfit.
    fold (cards_asked E rows) in Hfit.
    pose proof (cards_asked_nonneg rows) as Hpos.
    rewrite load_row_usable; [|exact Hrow | lia]. simpl.
    rewrite IH; [now rewrite <- app_assoc | exact Hrest |].
    rewrite length_app. unfold copies. rewrite repeat_length. lia.
Qed.

(** When the loop returns, every record was usable. *)
Lemma for_each_load_row_returns (rows : list (list string)) :
  forall cards deck,
    for_each (DeckBuilder.load_row E) rows cards = Return deck ->
    Forall (usable E) rows /\ deck = cards ++ expand E rows.
Proof.
  induction rows as [|row rows IH]; intros cards deck; simpl.
  - intros H. injection H as <-. split; [constructor | now rewrite app_nil_r].
  - destruct (DeckBuilder.load_row E cards row) as [cards'|e] eqn:Hrow;
      simpl; [|discriminate].
    intros Hrest. apply load_row_returns in Hrow as [Hu ->].
    apply IH in Hrest as [Hus ->]. split; [now constructor|].
    now rewrite <- app_assoc.
Qed.

(** The loop stops at the first record it cannot read. *)
Lemma for_each_load_row_stops (good rest : list (list string))
    (bad : list string) (cards cards' : list string) :
  for_each (DeckBuilder.load_row E) good cards = Return cards' ->
  malformed E bad ->
  for_each (DeckBuilder.load_row E) (good ++ bad :: rest) cards =
  Raise (malformed_error bad).
Proof.
  revert cards. induction good as [|row good IH]; intros cards; simpl.
  - intros H Hbad. injection H as <-. now rewrite load_row_malformed.
  - destruct (DeckBuilder.load_row E cards row) as [c|e]; simpl;
      [|discriminate].
    apply IH.
Qed.

Lemma usable_not_malformed (row : list string) :
  usable E row -> ~ malformed E row.
Proof. intros [w [Hw _]] Hbad. unfold malformed in Hbad. congruence. Qed.

Lemma load_csv_well_formed (filename delim : string)
    (rows : list (list string)) :
  open_csv E filename delim =
    Return {| records := rows; failure := None |} ->
  Forall (usable E) rows ->
  (cards_asked E rows <= Z.of_N (capacity E))%Z ->
  DeckBuilder.load_csv E filename delim = Return (expand E rows).
Proof.
  intros Hopen Hrows Hfit. unfold DeckBuilder.load_csv. rewrite Hopen.
  simpl. rewrite for_each_load_row; [reflexivity | exact Hrows |].
  simpl. lia.
Qed.

Lemma load_csv_returns (filename delim : string) (deck : list string) :
  DeckBuilder.load_csv E filename delim = Return deck ->
  exists rows,
    open_csv E filename delim =
      Return {| records := rows; failure := None |} /\
    Forall (usable E) rows /\ deck = expand E rows.
Proof.
  unfold DeckBuilder.load_csv.
  destruct (open_csv E filename delim) as [[rows ending]|e]; simpl;
    [|discriminate].
  destruct (for_each (DeckBuilder.load_row E) rows []) as [cards|e] eqn:Hrun;
    simpl; [|discriminate].
  destruct ending as [e|]; [discriminate|]. intros H. injection H as <-.
  apply for_each_load_row_returns in Hrun as [Hus ->].
  exists rows. now repeat split.
Qed.

End LoaderFacts.


Lemma ranged_usable (E : env) (rows : list (list string)) :
  Forall (fun row => exists w, weight_of E row = Some w /\
                               (- maxsize E - 1 <= w <= maxsize E)%Z) rows ->
  Forall (usable E) rows.
Proof.
  apply Forall_impl. intros row [w [Hw Hrange]]. exists w.
  split; [exact Hw|]. unfold index_sized.
  apply andb_true_iff. split; apply Z.leb_le; lia.
Qed.




(** C7, as the code has it.  [load_csv] raises what [open] or the call of
    [csv.reader] raises.  It fails on every file that holds a record with
    fewer than two fields or with a second field that is not an integer: when
    the records before it load, with [IndexError] for the missing field and
    [ValueError] for the field that is not an integer.  When the reading
    stops on an exception and the records before it load, that exception
    comes out.  [load_csv] returns only when the file was read to its end and
    every record has at least two fields and an integer second field.
    Fields after the second are not looked at. *)
Theorem load_csv_outcome (E : env) (filename delim : string) :
  (forall e, open_csv E filename delim = Raise e ->
     DeckBuilder.load_csv E filename delim = Raise e) /\
  (forall rows ending,
     open_csv E filename delim =
       Return {| records := rows; failure := ending |} ->
     Exists (malformed E) rows ->
     exists e, DeckBuilder.load_csv E filename delim = Raise e) /\
  (forall good bad rest ending cards,
     open_csv E filename delim =
       Return {| records := good ++ bad :: rest; failure := ending |} ->
     for_each (DeckBuilder.load_row E) good [] = Return cards ->
     malformed E bad ->
     DeckBuilder.load_csv E filename delim =
       Raise (if length bad <? 2 then IndexError else ValueError)) /\
  (forall rows e cards,
     open_csv E filename delim =
       Return {| records := rows; failure := Some e |} ->
     for_each (DeckBuilder.load_row E) rows [] = Return cards ->
     DeckBuilder.load_csv E filename delim = Raise e) /\
  (forall deck,
     DeckBuilder.load_csv E filename delim = Return deck ->
     exists rows,
       open_csv E filename delim =
         Return {| records := rows; failure := None |} /\
       Forall (fun row => 2 <= length row /\
                          exists w, weight_of E row = Some w) rows) /\
  (forall cards text field rest,
     DeckBuilder.load_row E cards (text :: field :: rest) =
     DeckBuilder.load_row E cards [text; field]).
Proof.
  assert (Hreturns : forall deck,
            DeckBuilder.load_csv E filename delim = Return deck ->
            exists rows,
              open_csv E filename delim =
                Return {| records := rows; failure := None |} /\
              Forall (usable E) rows).
  { intros deck Hload.
    destruct (load_csv_returns E filename delim deck Hload)
      as [rows [Hopen [Hus _]]]. eauto. }
  split; [|split; [|split; [|split; [|split]]]].
  - intros e Hopen. unfold DeckBuilder.load_csv. now rewrite Hopen.
  - intros rows ending Hopen Hbad.
    destruct (DeckBuilder.load_csv E filename delim) as [deck|e] eqn:Hload;
      [|now exists e].
    exfalso. destruct (Hreturns deck eq_refl) as [rows' [Hopen' Hus]].
    rewrite Hopen in Hopen'. injection Hopen' as <- _.
    apply Exists_exists in Hbad as [row [Hin Hrow]].
    rewrite Forall_forall in Hus.
    exact (usable_not_malformed E row (Hus row Hin) Hrow).
  - intros good bad rest ending cards Hopen Hgood Hbad.
    unfold DeckBuilder.load_csv. rewrite Hopen. simpl.
    now rewrite (for_each_load_row_stops E good rest bad [] cards Hgood Hbad).
  - intros rows e cards Hopen Hcards.
    unfold DeckBuilder.load_csv. rewrite Hopen. simpl. now rewrite Hcards.
  - intros deck Hload. destruct (Hreturns deck Hload) as [rows [Hopen Hus]].
    exists rows. split; [exact Hopen|].
    eapply Forall_impl; [|exact Hus]. intros row [w [Hw _]].
    split; [|now exists w].
    destruct row as [|text [|field rest]]; simpl in *; try discriminate. lia.
  - intros cards text field rest. now rewrite !load_row_cases.
Qed.

Lemma load_csv_outcome_witness :
  DeckBuilder.load_csv Example.E "short.csv" "," = Raise IndexError /\
  DeckBuilder.load_csv Example.E "text.csv" "," = Raise ValueError /\
  DeckBuilder.load_csv Example.E "missing.csv" "," =
    Raise (OSError "FileNotFoundError") /\
  DeckBuilder.load_csv Example.E "front.csv" ";;" = Raise TypeError.
Proof.
  split; [|split; [|split]].
  - apply (load_csv_outcome Example.E "short.csv" ",")
      with (good := [["A"; "1"]]) (bad := ["B"]) (rest := [])
           (ending := None) (cards := ["A"]).
    + reflexivity.
    + reflexivity.
    + reflexivity.
  - apply (load_csv_outcome Example.E "text.csv" ",")
      with (good := []) (bad := ["A"; "many"]) (rest := [])
           (ending := None) (cards := []).
    + reflexivity.
    + reflexivity.
    + reflexivity.
  - apply (load_csv_outcome Example.E "missing.csv" ","). reflexivity.
  - apply (load_csv_outcome Example.E "front.csv" ";;"). reflexivity.
Defined.

(** C7 as stated fails: a record with three fields has the wrong field count,
    and the file loads; a record with one field raises [IndexError], a weight
    that is not an integer raises [ValueError]: neither is a [ParseError]. *)
Lemma load_csv_accepts_wrong_field_count :
  open_csv Example.E "extra.csv" "," =
    Return {| records := [["A"; "1"; "spare"]]; failure := None |} /\
  length ["A"; "1"; "spare"] <> 2 /\
  DeckBuilder.load_csv Example.E "extra.csv" "," = Return ["A"] /\
  DeckBuilder.load_csv Example.E "short.csv" "," = Raise IndexError /\
  DeckBuilder.load_csv Example.E "text.csv" "," = Raise ValueError /\
  exn_name IndexError <> "ParseError" /\
  exn_name ValueError <> "ParseError".
Proof.
  repeat split; try reflexivity; simpl; discriminate.
Qed.




(** ** The balancer *)

Lemma choice_nonempty (g : rng) (seq : list string) :
  seq <> [] ->
  exists x, choice g seq = Return (x, snd (randbelow g (length seq))) /\
            In x seq.
Proof.
  intros Hne. destruct seq as [|a l]; [congruence|].
  unfold choice, randbelow, getitem.
  remember (a :: l) as seq eqn:Hseq.
  assert (Hlt : g 0 mod length seq < length seq).
  { apply Nat.mod_upper_bound. subst seq. simpl. lia. }
  destruct (nth_error seq (g 0 mod length seq)) as [x|] eqn:Hx.
  - exists x. split; [reflexivity|]. eapply nth_error_In; eassumption.
  - apply nth_error_None in Hx. lia.
Qed.

Lemma grown_from_trans (a b c : list string) :
  grown_from a b -> grown_from b c -> grown_from a c.
Proof.
  intros Hab Hbc. induction Hbc as [|d x _ IH Hin].
  - exact Hab.
  - now constructor.
Qed.

Lemma grown_from_one (deck : list string) (x : string) :
  In x deck -> grown_from deck (deck ++ [x]).
Proof. intros Hin. constructor; [constructor | exact Hin]. Qed.

(** Entries are only ever appended, and all of them come from the deck. *)
Lemma grown_from_suffix (a b : list string) :
  grown_from a b ->
  exists extra, b = a ++ extra /\ Forall (fun x => In x a) extra.
Proof.
  induction 1 as [|d x _ [extra [-> Hall]] Hin].
  - exists []. now rewrite app_nil_r.
  - exists (extra ++ [x]). split; [now rewrite app_assoc|].
    apply Forall_app. split; [exact Hall|]. constructor; [|constructor].
    apply in_app_or in Hin as [Hin|Hin]; [exact Hin|].
    rewrite Forall_forall in Hall. now apply Hall.
Qed.

(** The first loop: [k] entries short, [k + 1] tests of the condition. *)
Lemma grow_back_loop (k : nat) :
  forall fuel g front back,
    back <> [] -> length front = length back + k -> k < fuel ->
    exists g' back',
      while DeckBuilder.back_is_shorter DeckBuilder.grow_back fuel
        (g, {| DeckBuilder.front_cards := front;
               DeckBuilder.back_cards := back |}) =
      Some (Return (g', {| DeckBuilder.front_cards := front;
                           DeckBuilder.back_cards := back' |})) /\
      grown_from back back' /\ length back' = length front.
Proof.
  induction k as [|k IH]; intros fuel g front back Hne Hlen Hfuel;
    (destruct fuel as [|fuel]; [lia|]); simpl;
    unfold DeckBuilder.back_is_shorter at 1; simpl.
  - replace (length back <? length front) with false
      by (symmetry; apply Nat.ltb_ge; lia).
    exists g, back. repeat split; [constructor | lia].
  - replace (length back <? length front) with true
      by (symmetry; apply Nat.ltb_lt; lia).
    destruct (choice_nonempty g back Hne) as [x [Hx Hin]].
    rewrite Hx. simpl.
    destruct (IH fuel (snd (randbelow g (length back))) front (back ++ [x]))
      as [g' [back' [Hrun [Hgrown Hlen']]]].
    + intros Heq. now apply app_eq_nil in Heq as [_ Heq].
    + rewrite length_app. simpl. lia.
    + lia.
    + exists g', back'. split; [exact Hrun|]. split; [|exact Hlen'].
      eapply grown_from_trans; [apply grown_from_one|]; eassumption.
Qed.

(** The second loop, with the roles of the decks exchanged. *)
Lemma grow_front_loop (k : nat) :
  forall fuel g front back,
    front <> [] -> length back = length front + k -> k < fuel ->
    exists g' front',
      while DeckBuilder.front_is_shorter DeckBuilder.grow_front fuel
        (g, {| DeckBuilder.front_cards := front;
               DeckBuilder.back_cards := back |}) =
      Some (Return (g', {| DeckBuilder.front_cards := front';
                           DeckBuilder.back_cards := back |})) /\
      grown_from front front' /\ length front' = length back.
Proof.
  induction k as [|k IH]; intros fuel g front back Hne Hlen Hfuel;
    (destruct fuel as [|fuel]; [lia|]); simpl;
    unfold DeckBuilder.front_is_shorter at 1; simpl.
  - replace (length front <? length back) with false
      by (symmetry; apply Nat.ltb_ge; lia).
    exists g, front. repeat split; [constructor | lia].
  - replace (length front <? length back) with true
      by (symmetry; apply Nat.ltb_lt; lia).
    destruct (choice_nonempty g front Hne) as [x [Hx Hin]].
    rewrite Hx. simpl.
    destruct (IH fuel (snd (randbelow g (length front))) (front ++ [x]) back)
      as [g' [front' [Hrun [Hgrown Hlen']]]].
    + intros Heq. now apply app_eq_nil in Heq as [_ Heq].
    + rewrite length_app. simpl. lia.
    + lia.
    + exists g', front'. split; [exact Hrun|]. split; [|exact Hlen'].
      eapply grown_from_trans; [apply grown_from_one|]; eassumption.
Qed.

(** A loop whose condition is false at the start does nothing. *)
Lemma while_skip (S : Type) (cond : S -> bool) (body : S -> result S)
    (fuel : nat) (s : S) :
  cond s = false -> 0 < fuel -> while cond body fuel s = Some (Return s).
Proof.
  intros Hc Hfuel. destruct fuel as [|fuel]; [lia|]. simpl. now rewrite Hc.
Qed.

(** What [balance] does to two non-empty decks, whatever the draws. *)
Lemma balance_nonempty (fuel : nat) (g : rng) (front back : list string) :
  front <> [] -> back <> [] ->
  length front - length back < fuel ->
  length back - length front < fuel ->
  exists g' front' back',
    DeckBuilder.balance fuel g
      {| DeckBuilder.front_cards := front; DeckBuilder.back_cards := back |} =
    Some (Return (g', {| DeckBuilder.front_cards := front';
                         DeckBuilder.back_cards := back' |})) /\
    length front' = length back' /\
    grown_from front front' /\ grown_from back back' /\
    (length back <= length front -> front' = front) /\
    (length front <= length back -> back' = back).
Proof.
  intros Hf Hb Hfuel1 Hfuel2. unfold DeckBuilder.balance.
  destruct (Nat.le_ge_cases (length back) (length front)) as [Hle|Hle].
  - destruct (grow_back_loop (length front - length back) fuel g front back)
      as [g' [back' [Hrun [Hgrown Hlen]]]]; [assumption | lia | lia |].
    rewrite Hrun. simpl. rewrite while_skip.
    + exists g', front, back'. repeat split; try assumption; try constructor.
      * now symmetry.
      * intros Hle'. destruct Hgrown as [|d x Hd Hin]; [reflexivity|].
        rewrite length_app in Hlen. simpl in Hlen.
        apply grown_from_suffix in Hd as [extra [-> _]].
        rewrite length_app in Hlen. lia.
    + unfold DeckBuilder.front_is_shorter. simpl. apply Nat.ltb_ge. lia.
    + lia.
  - rewrite while_skip.
    + simpl.
      destruct (grow_front_loop (length back - length front) fuel g front back)
        as [g' [front' [Hrun [Hgrown Hlen]]]]; [assumption | lia | lia |].
      rewrite Hrun. exists g', front', back.
      repeat split; try assumption; try constructor.
      intros Hle'. destruct Hgrown as [|d x Hd Hin]; [reflexivity|].
      rewrite length_app in Hlen. simpl in Hlen.
      apply grown_from_suffix in Hd as [extra [-> _]].
      rewrite length_app in Hlen. lia.
    + unfold DeckBuilder.back_is_shorter. simpl. apply Nat.ltb_ge. lia.
    + lia.
Qed.

(** C2.  For two non-empty decks [balance] returns, whatever the random
    draws, with decks of equal length; the deck that was at least as long as
    the other is unchanged, and the other one is the old deck followed by
    entries each of which was appended from the contents the deck had at that
    moment (hence from the original deck). *)
Theorem balance_equal_length (fuel : nat) (g : rng) (self : DeckBuilder.t) :
  DeckBuilder.front_cards self <> [] ->
  DeckBuilder.back_cards self <> [] ->
  length (DeckBuilder.front_cards self)
    - length (DeckBuilder.back_cards self) < fuel ->
  length (DeckBuilder.back_cards self)
    - length (DeckBuilder.front_cards self) < fuel ->
  exists g' self',
    DeckBuilder.balance fuel g self = Some (Return (g', self')) /\
    length (DeckBuilder.front_cards self') =
      length (DeckBuilder.back_cards self') /\
    (length (DeckBuilder.back_cards self)
       <= length (DeckBuilder.front_cards self) ->
     DeckBuilder.front_cards self' = DeckBuilder.front_cards self /\
     grown_from (DeckBuilder.back_cards self) (DeckBuilder.back_cards self') /\
     exists extra,
       DeckBuilder.back_cards self' = DeckBuilder.back_cards self ++ extra /\
       Forall (fun x => In x (DeckBuilder.back_cards self)) extra) /\
    (length (DeckBuilder.front_cards self)
       <= length (DeckBuilder.back_cards self) ->
     DeckBuilder.back_cards self' = DeckBuilder.back_cards self /\
     grown_from (DeckBuilder.front_cards self) (DeckBuilder.front_cards self') /\
     exists extra,
       DeckBuilder.front_cards self' = DeckBuilder.front_cards self ++ extra /\
       Forall (fun x => In x (DeckBuilder.front_cards self)) extra).
Proof.
  destruct self as [front back]. simpl. intros Hf Hb Hfuel1 Hfuel2.
  destruct (balance_nonempty fuel g front back Hf Hb Hfuel1 Hfuel2)
    as [g' [front' [back' [Hrun [Hlen [Hgf [Hgb [Hkeepf Hkeepb]]]]]]]].
  exists g', {| DeckBuilder.front_cards := front';
                DeckBuilder.back_cards := back' |}.
  simpl. split; [exact Hrun|]. split; [exact Hlen|]. split; intros Hle.
  - split; [now apply Hkeepf|]. split; [exact Hgb|].
    now apply grown_from_suffix.
  - split; [now apply Hkeepb|]. split; [exact Hgf|].
    now apply grown_from_suffix.
Qed.

Lemma balance_equal_length_witness :
  exists g' self',
    DeckBuilder.balance 3 Example.counter
      {| DeckBuilder.front_cards := ["A"; "A"; "B"];
         DeckBuilder.back_cards := ["x"] |} = Some (Return (g', self')) /\
    length (DeckBuilder.front_cards self') =
      length (DeckBuilder.back_cards self').
Proof.
  destruct (balance_equal_length 3 Example.counter
              {| DeckBuilder.front_cards := ["A"; "A"; "B"];
                 DeckBuilder.back_cards := ["x"] |})
    as [g' [self' [Hrun [Hlen _]]]]; simpl; try discriminate; try lia.
  exists g', self'. split; [exact Hrun | exact Hlen].
Defined.

(** C6, as the code has it.  When exactly one of the two decks is empty,
    [balance] stops at once with the [IndexError] that [random.choice] raises
    on an empty sequence: it neither runs on nor returns decks. *)
Theorem balance_empty_deck (fuel : nat) (g : rng) (self : DeckBuilder.t) :
  0 < fuel ->
  (DeckBuilder.front_cards self = [] /\ DeckBuilder.back_cards self <> []) \/
  (DeckBuilder.front_cards self <> [] /\ DeckBuilder.back_cards self = []) ->
  DeckBuilder.balance fuel g self = Some (Raise IndexError).
Proof.
  intros Hfuel Hdecks. destruct self as [front back]. simpl in Hdecks.
  destruct fuel as [|fuel]; [lia|]. unfold DeckBuilder.balance.
  destruct Hdecks as [[-> Hb]|[Hf ->]].
  - destruct back as [|b back]; [congruence|]. reflexivity.
  - destruct front as [|f front]; [congruence|]. reflexivity.
Qed.

Lemma balance_empty_deck_witness :
  DeckBuilder.balance 1 Example.counter
    {| DeckBuilder.front_cards := []; DeckBuilder.back_cards := ["x"] |} =
  Some (Raise IndexError).
Proof.
  apply balance_empty_deck; [lia|]. left. simpl. split; [reflexivity|].
  discriminate.
Defined.

(** C6 as stated fails: with a front deck of one card and an empty back deck
    the exception that comes out of [balance] is not an [EmptyDeckError]. *)
Lemma balance_raises_no_EmptyDeckError :
  ~ exists e,
      DeckBuilder.balance 1 Example.counter
        {| DeckBuilder.front_cards := ["A"]; DeckBuilder.back_cards := [] |} =
      Some (Raise e) /\
      exn_name e = "EmptyDeckError".
Proof.
  intros [e [Hrun Hname]]. cbv in Hrun. injection Hrun as <-.
  discriminate Hname.
Qed.

(** ** Loops that return *)

(** A loop that returns leaves its condition false and keeps every invariant
    of its body. *)
Lemma while_returns (S : Type) (cond : S -> bool) (body : S -> result S)
    (Inv : S -> Prop) :
  (forall s s', Inv s -> cond s = true -> body s = Return s' -> Inv s') ->
  forall fuel s s',
    Inv s -> while cond body fuel s = Some (Return s') ->
    Inv s' /\ cond s' = false.
Proof.
  intros Hstep. induction fuel as [|fuel IH]; intros s s' Hinv Hrun;
    simpl in Hrun; [discriminate|].
  destruct (cond s) eqn:Hc.
  - destruct (body s) as [s1|e] eqn:Hb; [|discriminate].
    eapply IH; [|exact Hrun]. eapply Hstep; eassumption.
  - injection Hrun as <-. now split.
Qed.

Lemma grow_front_keeps_order (s s' : rng * DeckBuilder.t) :
  length (DeckBuilder.front_cards (snd s))
    <= length (DeckBuilder.back_cards (snd s)) ->
  DeckBuilder.front_is_shorter s = true ->
  DeckBuilder.grow_front s = Return s' ->
  length (DeckBuilder.front_cards (snd s'))
    <= length (DeckBuilder.back_cards (snd s')).
Proof.
  destruct s as [g [front back]]. unfold DeckBuilder.front_is_shorter,
    DeckBuilder.grow_front. simpl. intros _ Hlt Hstep.
  apply Nat.ltb_lt in Hlt.
  destruct (choice g front) as [[x g1]|e]; simpl in Hstep; [|discriminate].
  injection Hstep as <-. simpl. rewrite length_app. simpl. lia.
Qed.

(** Whenever [balance] returns, the decks have the same length. *)
Lemma balance_returns_equal (fuel : nat) (g g' : rng)
    (self self' : DeckBuilder.t) :
  DeckBuilder.balance fuel g self = Some (Return (g', self')) ->
  length (DeckBuilder.front_cards self') =
  length (DeckBuilder.back_cards self').
Proof.
  unfold DeckBuilder.balance. intros Hrun.
  destruct (while DeckBuilder.back_is_shorter DeckBuilder.grow_back fuel
              (g, self)) as [[s1|e]|] eqn:H1; simpl in Hrun;
    try discriminate.
  destruct (while_returns _ _ _ (fun _ => True) (fun _ _ _ _ _ => I)
              _ _ _ I H1) as [_ Hc1].
  unfold DeckBuilder.back_is_shorter in Hc1. apply Nat.ltb_ge in Hc1.
  destruct (while_returns _ _ _
              (fun s => length (DeckBuilder.front_cards (snd s))
                        <= length (DeckBuilder.back_cards (snd s)))
              grow_front_keeps_order _ _ _ Hc1 Hrun) as [Hle Hc2].
  unfold DeckBuilder.front_is_shorter in Hc2. apply Nat.ltb_ge in Hc2.
  simpl in Hle, Hc2. lia.
Qed.

Lemma setitem_length (A : Type) (l : list A) :
  forall i v, length (setitem l i v) = length l.
Proof.
  induction l as [|x l IH]; intros [|i] v; simpl; try reflexivity.
  now rewrite IH.
Qed.

Lemma swap_length (A : Type) (l : list A) (i j : nat) :
  length (swap l i j) = length l.
Proof.
  unfold swap. destruct (nth_error l j), (nth_error l i); try reflexivity.
  now rewrite !setitem_length.
Qed.

Lemma shuffle_from_length (A : Type) (i : nat) :
  forall g (l : list A), length (fst (shuffle_from i g l)) = length l.
Proof.
  induction i as [|i IH]; intros g l; simpl; [reflexivity|].
  now rewrite IH, swap_length.
Qed.

Lemma shuffle_length (g : rng) (self : DeckBuilder.t) :
  length (DeckBuilder.front_cards (snd (DeckBuilder.shuffle g self))) =
    length (DeckBuilder.front_cards self) /\
  length (DeckBuilder.back_cards (snd (DeckBuilder.shuffle g self))) =
    length (DeckBuilder.back_cards self).
Proof.
  unfold DeckBuilder.shuffle, Py.shuffle.
  pose proof (shuffle_from_length _ (length (DeckBuilder.front_cards self) - 1)
                g (DeckBuilder.front_cards self)) as Hf.
  destruct (shuffle_from _ g (DeckBuilder.front_cards self)) as [front g1].
  pose proof (shuffle_from_length _ (length (DeckBuilder.back_cards self) - 1)
                g1 (DeckBuilder.back_cards self)) as Hb.
  destruct (shuffle_from _ g1 (DeckBuilder.back_cards self)) as [back g2].
  simpl in *. now split.
Qed.


(** ** Further properties of the balancer *)

Lemma choice_in (g g' : rng) (seq : list string) (x : string) :
  choice g seq = Return (x, g') -> In x seq.
Proof.
  destruct seq as [|a l]; [discriminate|]. intros Hc.
  destruct (choice_nonempty g (a :: l)) as [y [Hy Hin]]; [discriminate|].
  rewrite Hy in Hc. now injection Hc as <- _.
Qed.

Lemma balance_same_length (fuel : nat) (g : rng) (self : DeckBuilder.t) :
  0 < fuel ->
  length (DeckBuilder.front_cards self) =
    length (DeckBuilder.back_cards self) ->
  DeckBuilder.balance fuel g self = Some (Return (g, self)).
Proof.
  intros Hfuel Hlen. unfold DeckBuilder.balance.
  rewrite while_skip; [simpl; apply while_skip | | exact Hfuel]; try exact Hfuel;
    unfold DeckBuilder.front_is_shorter, DeckBuilder.back_is_shorter; simpl;
    apply Nat.ltb_ge; lia.
Qed.

(** X2.  Decks of the same length, two empty decks among them, come back
    from [balance] as they are, and no random draw is made. *)
Theorem balance_equal_decks_untouched (fuel : nat) (g : rng)
    (self : DeckBuilder.t) :
  0 < fuel ->
  length (DeckBuilder.front_cards self) =
    length (DeckBuilder.back_cards self) ->
  DeckBuilder.balance fuel g self = Some (Return (g, self)).
Proof.
  intros Hfuel Hlen. destruct self as [front back]. simpl in Hlen.
  destruct fuel as [|fuel]; [lia|].
  unfold DeckBuilder.balance. simpl.
  unfold DeckBuilder.back_is_shorter, DeckBuilder.front_is_shorter. simpl.
  assert (Hnot1 : (length back <? length front) = false)
    by (apply Nat.ltb_ge; lia).
  assert (Hnot2 : (length front <? length back) = false)
    by (apply Nat.ltb_ge; lia).
  rewrite Hnot1. simpl. now rewrite Hnot2.
Qed.

Lemma balance_equal_decks_untouched_witness :
  DeckBuilder.balance 1 Example.counter
    {| DeckBuilder.front_cards := []; DeckBuilder.back_cards := [] |} =
  Some (Return (Example.counter,
                {| DeckBuilder.front_cards := [];
                   DeckBuilder.back_cards := [] |})).
Proof.
  apply balance_equal_decks_untouched; [lia | reflexivity].
Defined.

Lemma grow_back_keeps (front back : list string) (s s' : rng * DeckBuilder.t) :
  back_grows front back s ->
  DeckBuilder.back_is_shorter s = true ->
  DeckBuilder.grow_back s = Return s' ->
  back_grows front back s'.
Proof.
  destruct s as [g [f b]]. unfold back_grows, DeckBuilder.back_is_shorter,
    DeckBuilder.grow_back. simpl. intros [-> [Hgrown Hle]] Hlt Hstep.
  apply Nat.ltb_lt in Hlt.
  destruct (choice g b) as [[x g1]|e] eqn:Hc; simpl in Hstep; [|discriminate].
  injection Hstep as <-. simpl. split; [reflexivity|]. split.
  - constructor; [exact Hgrown|]. eapply choice_in; eassumption.
  - rewrite length_app. simpl. lia.
Qed.

Lemma grow_front_keeps (front back : list string)
    (s s' : rng * DeckBuilder.t) :
  front_grows front back s ->
  DeckBuilder.front_is_shorter s = true ->
  DeckBuilder.grow_front s = Return s' ->
  front_grows front back s'.
Proof.
  destruct s as [g [f b]]. unfold front_grows, DeckBuilder.front_is_shorter,
    DeckBuilder.grow_front. simpl. intros [-> [Hgrown Hle]] Hlt Hstep.
  apply Nat.ltb_lt in Hlt.
  destruct (choice g f) as [[x g1]|e] eqn:Hc; simpl in Hstep; [|discriminate].
  injection Hstep as <-. simpl. split; [reflexivity|]. split.
  - constructor; [exact Hgrown|]. eapply choice_in; eassumption.
  - rewrite length_app. simpl. lia.
Qed.

Lemma grown_from_length (a b : list string) :
  grown_from a b -> length a <= length b.
Proof.
  intros H. apply grown_from_suffix in H as [extra [-> _]].
  rewrite length_app. lia.
Qed.

(** Whatever the decks, a [balance] that returns has only grown them. *)
Lemma balance_returns_grown (fuel : nat) (g g' : rng)
    (self self' : DeckBuilder.t) :
  DeckBuilder.balance fuel g self = Some (Return (g', self')) ->
  grown_from (DeckBuilder.front_cards self) (DeckBuilder.front_cards self') /\
  grown_from (DeckBuilder.back_cards self) (DeckBuilder.back_cards self') /\
  length (DeckBuilder.front_cards self') =
    Nat.max (length (DeckBuilder.front_cards self))
            (length (DeckBuilder.back_cards self)) /\
  length (DeckBuilder.back_cards self') =
    Nat.max (length (DeckBuilder.front_cards self))
            (length (DeckBuilder.back_cards self)).
Proof.
  destruct self as [front back]. unfold DeckBuilder.balance. simpl.
  intros Hrun.
  destruct (while DeckBuilder.back_is_shorter DeckBuilder.grow_back fuel
              (g, {| DeckBuilder.front_cards := front;
                     DeckBuilder.back_cards := back |}))
    as [[s1|e]|] eqn:H1; simpl in Hrun; try discriminate.
  assert (Hinit1 : back_grows front back
                     (g, {| DeckBuilder.front_cards := front;
                            DeckBuilder.back_cards := back |})).
  { unfold back_grows. simpl.
    split; [reflexivity | split; [constructor | lia]]. }
  destruct (while_returns _ _ _ (back_grows front back)
              (grow_back_keeps front back) _ _ _ Hinit1 H1)
    as [[Hf1 [Hg1 Hle1]] Hc1].
  unfold DeckBuilder.back_is_shorter in Hc1. apply Nat.ltb_ge in Hc1.
  rewrite Hf1 in Hc1.
  assert (Hinit2 : front_grows front (DeckBuilder.back_cards (snd s1)) s1).
  { unfold front_grows. rewrite Hf1.
    split; [reflexivity | split; [constructor | exact Hc1]]. }
  destruct (while_returns _ _ _
              (front_grows front (DeckBuilder.back_cards (snd s1)))
              (grow_front_keeps front (DeckBuilder.back_cards (snd s1))) _ _ _
              Hinit2 Hrun)
    as [[Hb2 [Hg2 Hle2]] Hc2].
  unfold DeckBuilder.front_is_shorter in Hc2. apply Nat.ltb_ge in Hc2.
  simpl in Hb2, Hg2, Hle2, Hc2. rewrite Hb2 in *.
  pose proof (grown_from_length _ _ Hg1). pose proof (grown_from_length _ _ Hg2).
  repeat split; try assumption; lia.
Qed.

(** X3.  Whenever [balance] returns, each deck is its old self followed by
    cards that were already in it, and both decks have the length of the
    longer of the two old decks: nothing is removed and no deck grows beyond
    the other. *)
Theorem balance_grows_to_longer (fuel : nat) (g g' : rng)
    (self self' : DeckBuilder.t) :
  DeckBuilder.balance fuel g self = Some (Return (g', self')) ->
  exists more_front more_back,
    DeckBuilder.front_cards self' =
      DeckBuilder.front_cards self ++ more_front /\
    DeckBuilder.back_cards self' =
      DeckBuilder.back_cards self ++ more_back /\
    Forall (fun x => In x (DeckBuilder.front_cards self)) more_front /\
    Forall (fun x => In x (DeckBuilder.back_cards self)) more_back /\
    length (DeckBuilder.front_cards self') =
      Nat.max (length (DeckBuilder.front_cards self))
              (length (DeckBuilder.back_cards self)) /\
    length (DeckBuilder.back_cards self') =
      Nat.max (length (DeckBuilder.front_cards self))
              (length (DeckBuilder.back_cards self)).
Proof.
  intros Hrun.
  destruct (balance_returns_grown _ _ _ _ _ Hrun) as [Hf [Hb [Hlf Hlb]]].
  apply grown_from_suffix in Hf as [more_front [Hf Hinf]].
  apply grown_from_suffix in Hb as [more_back [Hb Hinb]].
  exists more_front, more_back. repeat split; assumption.
Qed.

Lemma balance_grows_to_longer_witness :
  exists more_front more_back,
    ["A"; "A"; "B"] = ["A"; "A"; "B"] ++ more_front /\
    ["x"; "x"; "x"] = ["x"] ++ more_back /\
    Forall (fun x => In x ["A"; "A"; "B"]) more_front /\
    Forall (fun x => In x ["x"]) more_back /\
    3 = Nat.max 3 1 /\ 3 = Nat.max 3 1.
Proof.
  apply (balance_grows_to_longer 3 Example.counter
           (fun k => Example.counter (S (S k)))
           {| DeckBuilder.front_cards := ["A"; "A"; "B"];
              DeckBuilder.back_cards := ["x"] |}
           {| DeckBuilder.front_cards := ["A"; "A"; "B"];
              DeckBuilder.back_cards := ["x"; "x"; "x"] |}).
  reflexivity.
Defined.

(** ** The shuffler *)

Lemma nth_error_setitem_same (l : list string) :
  forall i old v,
    nth_error l i = Some old -> nth_error (setitem l i v) i = Some v.
Proof.
  induction l as [|x l IH]; intros [|i] old v H; simpl in *;
    try discriminate; [reflexivity | eauto].
Qed.

Lemma nth_error_setitem_other (l : list string) :
  forall i j v, i <> j -> nth_error (setitem l i v) j = nth_error l j.
Proof.
  induction l as [|x l IH]; intros [|i] [|j] v Hne; simpl;
    try reflexivity; try congruence.
  apply IH. congruence.
Qed.

(** Writing [v] over [old] moves one occurrence from [old] to [v]. *)
Lemma count_occ_setitem (x : string) (l : list string) :
  forall i old v,
    nth_error l i = Some old ->
    count_occ string_dec (setitem l i v) x
      + (if string_dec old x then 1 else 0) =
    count_occ string_dec l x + (if string_dec v x then 1 else 0).
Proof.
  induction l as [|y l IH]; intros [|i] old v H; simpl in *;
    try discriminate.
  - injection H as ->.
    destruct (string_dec v x), (string_dec old x); lia.
  - specialize (IH i old v H).
    destruct (string_dec y x); lia.
Qed.

Lemma swap_permutation (l : list string) (i j : nat) :
  Permutation (swap l i j) l.
Proof.
  unfold swap.
  destruct (nth_error l j) as [xj|] eqn:Hj; [|reflexivity].
  destruct (nth_error l i) as [xi|] eqn:Hi; [|reflexivity].
  apply (Permutation_count_occ string_dec). intros x.
  pose proof (count_occ_setitem x l i xi xj Hi) as H1.
  assert (Hj' : nth_error (setitem l i xj) j = Some xj).
  { destruct (Nat.eq_dec i j) as [->|Hne].
    - eapply nth_error_setitem_same; eassumption.
    - now rewrite nth_error_setitem_other. }
  pose proof (count_occ_setitem x (setitem l i xj) j xj xi Hj') as H2.
  destruct (string_dec xi x), (string_dec xj x); lia.
Qed.

Lemma shuffle_from_permutation (i : nat) :
  forall g (l : list string), Permutation (fst (shuffle_from i g l)) l.
Proof.
  induction i as [|i IH]; intros g l; simpl; [reflexivity|].
  etransitivity; [apply IH | apply swap_permutation].
Qed.

Lemma shuffle_permutation (g : rng) (self : DeckBuilder.t) :
  Permutation (DeckBuilder.front_cards (snd (DeckBuilder.shuffle g self)))
              (DeckBuilder.front_cards self) /\
  Permutation (DeckBuilder.back_cards (snd (DeckBuilder.shuffle g self)))
              (DeckBuilder.back_cards self).
Proof.
  unfold DeckBuilder.shuffle, Py.shuffle.
  pose proof (shuffle_from_permutation
                (length (DeckBuilder.front_cards self) - 1)
                g (DeckBuilder.front_cards self)) as Hf.
  destruct (shuffle_from _ g (DeckBuilder.front_cards self)) as [front g1].
  pose proof (shuffle_from_permutation
                (length (DeckBuilder.back_cards self) - 1)
                g1 (DeckBuilder.back_cards self)) as Hb.
  destruct (shuffle_from _ g1 (DeckBuilder.back_cards self)) as [back g2].
  simpl in *. now split.
Qed.

(** X4.  [shuffle] rearranges each deck: the shuffled front deck holds the
    cards of the front deck, each as often as before, and so does the back
    deck; no card moves from one deck to the other. *)
Theorem shuffle_permutes_each_deck (g : rng) (self : DeckBuilder.t) :
  Permutation (DeckBuilder.front_cards (snd (DeckBuilder.shuffle g self)))
              (DeckBuilder.front_cards self) /\
  Permutation (DeckBuilder.back_cards (snd (DeckBuilder.shuffle g self)))
              (DeckBuilder.back_cards self).
Proof.
  destruct self as [front back]. unfold DeckBuilder.shuffle, Py.shuffle.
  cbn [DeckBuilder.front_cards DeckBuilder.back_cards].
  destruct (shuffle_from (length front - 1) g front) as [front' g1] eqn:Hf.
  destruct (shuffle_from (length back - 1) g1 back) as [back' g2] eqn:Hb.
  cbn [snd DeckBuilder.front_cards DeckBuilder.back_cards]. split.
  - change front' with (fst (front', g1)). rewrite <- Hf.
    apply shuffle_from_permutation.
  - change back' with (fst (back', g2)). rewrite <- Hb.
    apply shuffle_from_permutation.
Qed.

(** [balance] on one empty deck, as a fact on two lists. *)
Lemma balance_nonempty_or_raise (fuel : nat) (g : rng)
    (front back : list string) :
  0 < fuel ->
  (front = [] /\ back <> []) \/ (front <> [] /\ back = []) ->
  DeckBuilder.balance fuel g
    {| DeckBuilder.front_cards := front; DeckBuilder.back_cards := back |} =
  Some (Raise IndexError).
Proof.
  intros Hfuel Hone. destruct fuel as [|fuel]; [lia|].
  unfold DeckBuilder.balance.
  destruct Hone as [[-> Hb]|[Hf ->]].
  - destruct back; [congruence | reflexivity].
  - destruct front; [congruence | reflexivity].
Qed.


(** ** The constructor *)

Section ConstructorFacts.

Variable E : env.

Lemma iadd_nonempty (l more : list string) :
  more <> [] ->
  iadd E l more =
  if fits E (Z.of_nat (length l) + Z.of_nat (length more))
  then Return (l ++ more) else Raise MemoryError.
Proof. destruct more; [congruence | reflexivity]. Qed.

(** What the wildcard statement does to a deck. *)
Lemma wildcards_outcome (deck : list string) (n : Z) :
  (more <- list_mul E [DeckBuilder.wildcard] n ;; iadd E deck more) =
  if negb (index_sized E n) then Raise OverflowError
  else if (0 <? n)%Z && negb (fits E (Z.of_nat (length deck) + n))
       then Raise MemoryError
       else Return (deck ++ repeat DeckBuilder.wildcard (Z.to_nat n)).
Proof.
  unfold list_mul. destruct (index_sized E n); [|reflexivity]. simpl negb.
  cbv iota.
  destruct (Z.leb_spec n 0) as [Hn|Hn].
  - replace (0 <? n)%Z with false by (symmetry; apply Z.ltb_ge; lia).
    simpl. replace (Z.to_nat n) with 0 by lia. simpl.
    now rewrite app_nil_r.
  - replace (0 <? n)%Z with true by (symmetry; apply Z.ltb_lt; lia).
    rewrite concat_repeat_singleton. cbn [andb length].
    assert (Hne : repeat DeckBuilder.wildcard (Z.to_nat n) <> []).
    { intros Hr. apply (f_equal (@length string)) in Hr.
      rewrite repeat_length in Hr. simpl in Hr. lia. }
    unfold fits.
    destruct (Z.leb_spec (Z.of_nat (length deck) + n) (Z.of_N (capacity E)))
      as [Hfit|Hfit]; cbn [negb].
    + replace (Z.of_nat 1 * n <=? Z.of_N (capacity E))%Z
        with true by (symmetry; apply Z.leb_le; lia).
      cbn [bind]. rewrite (iadd_nonempty _ _ Hne). unfold fits.
      rewrite repeat_length.
      replace (Z.of_nat (length deck) + Z.of_nat (Z.to_nat n)
                 <=? Z.of_N (capacity E))%Z with true
        by (symmetry; apply Z.leb_le; lia).
      reflexivity.
    + destruct (Z.leb_spec (Z.of_nat 1 * n) (Z.of_N (capacity E)))
        as [Hone|Hone]; [|reflexivity].
      cbn [bind]. rewrite (iadd_nonempty _ _ Hne). unfold fits.
      rewrite repeat_length.
      replace (Z.of_nat (length deck) + Z.of_nat (Z.to_nat n)
                 <=? Z.of_N (capacity E))%Z with false
        by (symmetry; apply Z.leb_gt; lia).
      reflexivity.
Qed.

Lemma wildcards_fit (deck : list string) (n : Z) :
  index_sized E n = true ->
  (Z.of_nat (length deck) + Z.max 0 n <= Z.of_N (capacity E))%Z ->
  (more <- list_mul E [DeckBuilder.wildcard] n ;; iadd E deck more) =
  Return (deck ++ repeat DeckBuilder.wildcard (Z.to_nat n)).
Proof.
  intros Hidx Hfit. rewrite wildcards_outcome, Hidx. simpl.
  destruct (Z.ltb_spec 0 n) as [Hn|Hn]; [|reflexivity].
  unfold fits.
  replace (Z.of_nat (length deck) + n <=? Z.of_N (capacity E))%Z with true
    by (symmetry; apply Z.leb_le; lia).
  reflexivity.
Qed.

Lemma add_front_wildcards_fit (n : Z) (self : DeckBuilder.t) :
  index_sized E n = true ->
  (Z.of_nat (length (DeckBuilder.front_cards self)) + Z.max 0 n
     <= Z.of_N (capacity E))%Z ->
  DeckBuilder.add_front_wildcards E n self =
  Return {| DeckBuilder.front_cards :=
              DeckBuilder.front_cards self
                ++ repeat DeckBuilder.wildcard (Z.to_nat n);
            DeckBuilder.back_cards := DeckBuilder.back_cards self |}.
Proof.
  intros Hidx Hfit. unfold DeckBuilder.add_front_wildcards.
  pose proof (wildcards_fit (DeckBuilder.front_cards self) n Hidx Hfit) as H.
  destruct (list_mul E [DeckBuilder.wildcard] n) as [more|e]; simpl in *;
    [|discriminate].
  now rewrite H.
Qed.

Lemma add_back_wildcards_fit (n : Z) (self : DeckBuilder.t) :
  index_sized E n = true ->
  (Z.of_nat (length (DeckBuilder.back_cards self)) + Z.max 0 n
     <= Z.of_N (capacity E))%Z ->
  DeckBuilder.add_back_wildcards E n self =
  Return {| DeckBuilder.front_cards := DeckBuilder.front_cards self;
            DeckBuilder.back_cards :=
              DeckBuilder.back_cards self
                ++ repeat DeckBuilder.wildcard (Z.to_nat n) |}.
Proof.
  intros Hidx Hfit. unfold DeckBuilder.add_back_wildcards.
  pose proof (wildcards_fit (DeckBuilder.back_cards self) n Hidx Hfit) as H.
  destruct (list_mul E [DeckBuilder.wildcard] n) as [more|e]; simpl in *;
    [|discriminate].
  now rewrite H.
Qed.

Lemma given_some (back_csv : option string) (name : string) :
  DeckBuilder.given back_csv = Some name ->
  back_csv = Some name /\ name <> "".
Proof.
  destruct back_csv as [[|c s]|]; simpl; try discriminate.
  intros H. injection H as <-. split; [reflexivity | discriminate].
Qed.

Lemma given_name (name : string) :
  name <> "" -> DeckBuilder.given (Some name) = Some name.
Proof. destruct name; [congruence | reflexivity]. Qed.

(** The construction without a back file. *)
Lemma construct_one_file (fuel : nat) (g : rng) (front_csv : string)
    (back_csv : option string) (n : Z) (delimiter : string)
    (front : list string) :
  DeckBuilder.given back_csv = None ->
  DeckBuilder.load_csv E front_csv delimiter = Return front ->
  DeckBuilder.__init__ E fuel g front_csv back_csv n delimiter =
  if negb (index_sized E n) then Some (Raise OverflowError)
  else if (0 <? n)%Z && negb (fits E (Z.of_nat (length front) + n))
       then Some (Raise MemoryError)
       else Some (Return (g, {| DeckBuilder.front_cards :=
                                  front ++ repeat DeckBuilder.wildcard
                                                  (Z.to_nat n);
                                DeckBuilder.back_cards := [] |})).
Proof.
  intros Hback Hload. unfold DeckBuilder.__init__.
  rewrite Hload, Hback. cbn [bind_run].
  unfold DeckBuilder.add_front_wildcards.
  cbn [DeckBuilder.front_cards DeckBuilder.back_cards].
  pose proof (wildcards_outcome front n) as H.
  destruct (list_mul E [DeckBuilder.wildcard] n) as [more|e]; simpl in H.
  - simpl. rewrite H.
    destruct (negb (index_sized E n)); [reflexivity|].
    destruct ((0 <? n)%Z && negb (fits E (Z.of_nat (length front) + n)));
      reflexivity.
  - simpl.
    destruct (negb (index_sized E n)); [now injection H as -> |].
    destruct ((0 <? n)%Z && negb (fits E (Z.of_nat (length front) + n)));
      [now injection H as -> | discriminate].
Qed.

(** The construction from two files, step by step: the decks before the
    wildcards do not depend on the number of wildcards. *)
Lemma construct_two_files (fuel : nat) (g : rng)
    (front_csv : string) (back_csv : option string) (name : string)
    (delimiter : string) (front back : list string) :
  DeckBuilder.given back_csv = Some name ->
  DeckBuilder.load_csv E front_csv delimiter = Return front ->
  DeckBuilder.load_csv E name delimiter = Return back ->
  (front = [] <-> back = []) ->
  length front - length back < fuel ->
  length back - length front < fuel ->
  exists g' front' back' more_front more_back,
    Permutation front' (front ++ more_front) /\
    Permutation back' (back ++ more_back) /\
    Forall (fun x => In x front) more_front /\
    Forall (fun x => In x back) more_back /\
    length front' = Nat.max (length front) (length back) /\
    length back' = Nat.max (length front) (length back) /\
    forall n,
      index_sized E n = true ->
      (Z.of_nat (Nat.max (length front) (length back)) + Z.max 0 n
         <= Z.of_N (capacity E))%Z ->
      DeckBuilder.__init__ E fuel g front_csv back_csv n delimiter =
      Some (Return (g', {| DeckBuilder.front_cards :=
                             front' ++ repeat DeckBuilder.wildcard
                                              (Z.to_nat n);
                           DeckBuilder.back_cards :=
                             back' ++ repeat DeckBuilder.wildcard
                                             (Z.to_nat n) |})).
Proof.
  intros Hgiven Hf Hb Hempty Hfuel1 Hfuel2.
  assert (Hbal : exists g1 s1,
            DeckBuilder.balance fuel g
              {| DeckBuilder.front_cards := front;
                 DeckBuilder.back_cards := back |} = Some (Return (g1, s1))).
  { destruct front as [|a front].
    - assert (back = []) as -> by now apply Hempty.
      exists g. eexists. apply balance_same_length; [lia|reflexivity].
    - assert (Hbne : back <> []).
      { intros Hnil. apply Hempty in Hnil. discriminate. }
      destruct (balance_nonempty fuel g (a :: front) back)
        as [g1 [f1 [b1 [Hrun _]]]]; try assumption; [discriminate|].
      eauto. }
  destruct Hbal as [g1 [s1 Hbal]].
  destruct (balance_returns_grown _ _ _ _ _ Hbal) as [Hgf [Hgb [Hlf Hlb]]].
  apply grown_from_suffix in Hgf as [more_front [Hf1 Hinf]].
  apply grown_from_suffix in Hgb as [more_back [Hb1 Hinb]].
  simpl in Hf1, Hb1, Hinf, Hinb, Hlf, Hlb.
  destruct (shuffle_permutation g1 s1) as [Hpf Hpb].
  destruct (DeckBuilder.shuffle g1 s1) as [g2 [f2 b2]] eqn:Hshuffle.
  simpl in Hpf, Hpb. rewrite Hf1 in Hpf. rewrite Hb1 in Hpb.
  exists g2, f2, b2, more_front, more_back.
  assert (Hlf2 : length f2 = Nat.max (length front) (length back))
    by (rewrite (Permutation_length Hpf), <- Hf1; exact Hlf).
  assert (Hlb2 : length b2 = Nat.max (length front) (length back))
    by (rewrite (Permutation_length Hpb), <- Hb1; exact Hlb).
  repeat (split; [assumption|]).
  intros n Hidx Hfit. unfold DeckBuilder.__init__.
  rewrite Hf, Hgiven. cbn [bind_run]. rewrite Hb. cbn [bind_run].
  rewrite Hbal. cbn [bind_run fst snd]. rewrite Hshuffle.
  rewrite add_back_wildcards_fit;
    [|exact Hidx | cbn [DeckBuilder.back_cards]; rewrite Hlb2; exact Hfit].
  cbn [bind_run DeckBuilder.front_cards DeckBuilder.back_cards].
  rewrite add_front_wildcards_fit;
    [|exact Hidx | cbn [DeckBuilder.front_cards]; rewrite Hlf2; exact Hfit].
  reflexivity.
Qed.

End ConstructorFacts.




(** C9.  Without a back file (none, or the empty name) the constructor makes
    no random draw: when it returns, the generator comes back as it was, the
    front deck is the deck [load_csv] returned, in that order, followed by the
    wildcards, and the back deck is empty.  It returns unless the wildcard
    count is not index-sized ([OverflowError]) or the deck with the wildcards
    does not fit in a list ([MemoryError]).  On the file with the two records
    [A,2] and [B,1] and one wildcard, the loaded deck is A, A, B and the final
    front deck has the four entries A, A, B, "*". *)
Theorem single_deck_keeps_load_order (E : env) (fuel : nat) (g : rng)
    (front_csv : string) (n : Z) (delimiter : string) :
  let built :=
    match DeckBuilder.load_csv E front_csv delimiter with
    | Return deck =>
        if negb (index_sized E n) then Some (Raise OverflowError)
        else if (0 <? n)%Z && negb (fits E (Z.of_nat (length deck) + n))
             then Some (Raise MemoryError)
             else
               Some (Return (g, {| DeckBuilder.front_cards :=
                                     deck ++ repeat DeckBuilder.wildcard
                                                    (Z.to_nat n);
                                   DeckBuilder.back_cards := [] |}))
    | Raise e => Some (Raise e)
    end in
  DeckBuilder.__init__ E fuel g front_csv None n delimiter = built /\
  DeckBuilder.__init__ E fuel g front_csv (Some "") n delimiter = built /\
  open_csv Example.E "front.csv" "," =
    Return {| records := [["A"; "2"]; ["B"; "1"]]; failure := None |} /\
  DeckBuilder.load_csv Example.E "front.csv" "," = Return ["A"; "A"; "B"] /\
  DeckBuilder.__init__ Example.E fuel g "front.csv" None 1 "," =
    Some (Return (g, {| DeckBuilder.front_cards := ["A"; "A"; "B"; "*"];
                        DeckBuilder.back_cards := [] |})) /\
  length ["A"; "A"; "B"; "*"] = 4.
Proof.
  cbv zeta.
  destruct (DeckBuilder.load_csv E front_csv delimiter) as [deck|e] eqn:Hload.
  - rewrite (construct_one_file E fuel g front_csv None n delimiter deck
               eq_refl Hload).
    rewrite (construct_one_file E fuel g front_csv (Some "") n delimiter deck
               eq_refl Hload).
    repeat split; reflexivity.
  - unfold DeckBuilder.__init__. rewrite Hload. repeat split; reflexivity.
Qed.

(** ** Further properties of the loader *)

Lemma count_occ_expand (E : env) (t : string) (rows : list (list string)) :
  count_occ string_dec (expand E rows) t = asked_for E t rows.
Proof.
  unfold asked_for. induction rows as [|row rows IH]; simpl; [reflexivity|].
  rewrite count_occ_app, IH. f_equal. unfold copies.
  destruct (string_dec (row_text row) t) as [Heq|Hne].
  - now apply count_occ_repeat_eq.
  - apply count_occ_repeat_neq. congruence.
Qed.

(** X1.  When a file loads, the deck holds of each text as many cards as the
    records with that text ask for together (a negative weight asks for
    none); a text that is on no record is not in the deck. *)
Theorem load_csv_copies (E : env) (filename delim : string)
    (deck : list string) :
  DeckBuilder.load_csv E filename delim = Return deck ->
  exists rows,
    open_csv E filename delim =
      Return {| records := rows; failure := None |} /\
    (forall t, count_occ string_dec deck t = asked_for E t rows) /\
    (forall t, In t deck -> exists row, In row rows /\ row_text row = t).
Proof.
  intros Hload.
  destruct (load_csv_returns E filename delim deck Hload)
    as [rows [Hopen [_ ->]]].
  exists rows. split; [exact Hopen|]. split.
  - intros t. apply count_occ_expand.
  - intros t Hin. unfold expand in Hin. apply in_flat_map in Hin.
    destruct Hin as [row [Hrow Ht]]. exists row. split; [exact Hrow|].
    unfold copies in Ht. now apply repeat_spec in Ht.
Qed.

Lemma load_csv_copies_witness :
  exists rows,
    open_csv Example.E "minus.csv" "," =
      Return {| records := rows; failure := None |} /\
    (forall t, count_occ string_dec ["A"; "A"; "C"] t =
               asked_for Example.E t rows) /\
    (forall t, In t ["A"; "A"; "C"] ->
               exists row, In row rows /\ row_text row = t).
Proof.
  apply (load_csv_copies Example.E "minus.csv" ","). reflexivity.
Defined.

(** ** Further properties of the constructor *)

(** X5.  Two files that load to decks which are both empty or both non-empty,
    with a wildcard count that is index-sized and decks that fit in a list
    with the wildcards, always give a [DeckBuilder] (fuel above the difference
    of the lengths is enough).  Each final deck is a rearrangement of the
    loaded deck and of copies of its own cards, followed by the wildcards;
    both decks have the length of the longer loaded deck plus the number of
    wildcards. *)
Theorem init_two_files (E : env) (fuel : nat) (g : rng)
    (front_csv back_csv : string) (n : Z) (delimiter : string)
    (front back : list string) :
  back_csv <> "" ->
  DeckBuilder.load_csv E front_csv delimiter = Return front ->
  DeckBuilder.load_csv E back_csv delimiter = Return back ->
  (front = [] <-> back = []) ->
  length front - length back < fuel ->
  length back - length front < fuel ->
  (- maxsize E - 1 <= n <= maxsize E)%Z ->
  (Z.of_nat (Nat.max (length front) (length back)) + Z.max 0 n
     <= Z.of_N (capacity E))%Z ->
  exists g' self front' back' more_front more_back,
    DeckBuilder.__init__ E fuel g front_csv (Some back_csv) n delimiter =
      Some (Return (g', self)) /\
    DeckBuilder.front_cards self =
      front' ++ repeat DeckBuilder.wildcard (Z.to_nat n) /\
    DeckBuilder.back_cards self =
      back' ++ repeat DeckBuilder.wildcard (Z.to_nat n) /\
    Permutation front' (front ++ more_front) /\
    Permutation back' (back ++ more_back) /\
    Forall (fun x => In x front) more_front /\
    Forall (fun x => In x back) more_back /\
    length (DeckBuilder.front_cards self) =
      Nat.max (length front) (length back) + Z.to_nat n /\
    length (DeckBuilder.back_cards self) =
      Nat.max (length front) (length back) + Z.to_nat n.
Proof.
  intros Hname Hf Hb Hempty Hfuel1 Hfuel2 Hn Hfit.
  assert (Hidx : index_sized E n = true).
  { unfold index_sized. apply andb_true_iff. split; apply Z.leb_le; lia. }
  destruct (construct_two_files E fuel g front_csv (Some back_csv) back_csv
              delimiter front back (given_name back_csv Hname) Hf Hb Hempty
              Hfuel1 Hfuel2)
    as [g' [front' [back' [more_front [more_back H]]]]].
  destruct H as [Hpf [Hpb [Hmf [Hmb [Hlf [Hlb Hinit]]]]]].
  exists g'. eexists. exists front', back', more_front, more_back.
  split; [apply Hinit; assumption|].
  cbn [DeckBuilder.front_cards DeckBuilder.back_cards].
  rewrite !length_app, !repeat_length, Hlf, Hlb.
  repeat split; assumption.
Qed.

Lemma init_two_files_witness :
  exists g' self front' back' more_front more_back,
    DeckBuilder.__init__ Example.E 3 Example.counter "front.csv"
      (Some "back.csv") 2 "," = Some (Return (g', self)) /\
    DeckBuilder.front_cards self = front' ++ ["*"; "*"] /\
    DeckBuilder.back_cards self = back' ++ ["*"; "*"] /\
    Permutation front' (["A"; "A"; "B"] ++ more_front) /\
    Permutation back' (["x"; "z"] ++ more_back) /\
    Forall (fun x => In x ["A"; "A"; "B"]) more_front /\
    Forall (fun x => In x ["x"; "z"]) more_back /\
    length (DeckBuilder.front_cards self) = 5 /\
    length (DeckBuilder.back_cards self) = 5.
Proof.
  apply (init_two_files Example.E 3 Example.counter "front.csv" "back.csv"
           2 "," ["A"; "A"; "B"] ["x"; "z"]);
    try reflexivity; try discriminate; try (simpl; lia);
    try (split; discriminate); try (vm_compute; discriminate).
Defined.

(** X6.  When both files load but exactly one of the two decks is empty (a
    file without records, or with weights that are all zero or negative), the
    construction fails with [IndexError]. *)
Theorem init_one_empty_deck (E : env) (fuel : nat) (g : rng)
    (front_csv back_csv : string) (n : Z) (delimiter : string)
    (front back : list string) :
  0 < fuel ->
  back_csv <> "" ->
  DeckBuilder.load_csv E front_csv delimiter = Return front ->
  DeckBuilder.load_csv E back_csv delimiter = Return back ->
  (front = [] /\ back <> []) \/ (front <> [] /\ back = []) ->
  DeckBuilder.__init__ E fuel g front_csv (Some back_csv) n delimiter =
  Some (Raise IndexError).
Proof.
  intros Hfuel Hname Hf Hb Hone. unfold DeckBuilder.__init__.
  rewrite Hf. cbn [bind_run].
  rewrite (given_name back_csv Hname), Hb. cbn [bind_run].
  rewrite (balance_nonempty_or_raise fuel g front back Hfuel Hone).
  reflexivity.
Qed.

Lemma init_one_empty_deck_witness :
  DeckBuilder.__init__ Example.E 1 Example.counter "front.csv"
    (Some "empty.csv") 5 "," = Some (Raise IndexError).
Proof.
  apply (init_one_empty_deck Example.E 1 Example.counter "front.csv"
           "empty.csv" 5 "," ["A"; "A"; "B"] []);
    try reflexivity; try discriminate; try lia.
  right. split; [discriminate | reflexivity].
Defined.

(** X7.  A wildcard count that is zero or negative, and not below
    [-sys.maxsize - 1], adds no card: the constructor gives what it gives for
    a count of zero. *)
Theorem init_no_wildcards_below_one (E : env) (fuel : nat) (g : rng)
    (front_csv : string) (back_csv : option string) (n : Z)
    (delimiter : string) :
  (- maxsize E - 1 <= n <= 0)%Z ->
  DeckBuilder.__init__ E fuel g front_csv back_csv n delimiter =
  DeckBuilder.__init__ E fuel g front_csv back_csv 0 delimiter.
Proof.
  intros Hn. destruct (Z.eq_dec n 0) as [->|Hne]; [reflexivity|].
  assert (Hmul : list_mul E [DeckBuilder.wildcard] n =
                 list_mul E [DeckBuilder.wildcard] 0).
  { unfold list_mul, index_sized.
    replace (- maxsize E - 1 <=? n)%Z with true
      by (symmetry; apply Z.leb_le; lia).
    replace (n <=? maxsize E)%Z with true
      by (symmetry; apply Z.leb_le; lia).
    replace (- maxsize E - 1 <=? 0)%Z with true
      by (symmetry; apply Z.leb_le; lia).
    replace (0 <=? maxsize E)%Z with true
      by (symmetry; apply Z.leb_le; lia).
    replace (n <=? 0)%Z with true by (symmetry; apply Z.leb_le; lia).
    reflexivity. }
  unfold DeckBuilder.__init__, DeckBuilder.add_front_wildcards,
    DeckBuilder.add_back_wildcards.
  now rewrite Hmul.
Qed.

Lemma init_no_wildcards_below_one_witness :
  DeckBuilder.__init__ Example.E 3 Example.counter "front.csv"
    (Some "back.csv") (-3) "," =
  DeckBuilder.__init__ Example.E 3 Example.counter "front.csv"
    (Some "back.csv") 0 ",".
Proof. apply init_no_wildcards_below_one. simpl. lia. Defined.

(** ** The renderer *)

Lemma list_eqb_eq (a : list string) :
  forall b, list_eqb a b = true <-> a = b.
Proof.
  induction a as [|x a IH]; intros [|y b]; simpl; try (split; congruence).
  rewrite andb_true_iff, String.eqb_eq, IH. split.
  - intros [-> ->]. reflexivity.
  - intros H. injection H as -> ->. now split.
Qed.

Lemma list_eqb_refl (a : list string) : list_eqb a a = true.
Proof. now apply list_eqb_eq. Qed.

Lemma list_eqb_neq (a b : list string) : a <> b -> list_eqb a b = false.
Proof.
  intros Hne. destruct (list_eqb a b) eqn:H; [|reflexivity].
  apply list_eqb_eq in H. contradiction.
Qed.

(** The page count of the code is the ceiling of the longer length over 28. *)
Lemma total_pages_closed_form (self : DeckBuilder.t) :
  DeckBuilder.total_pages self =
    Qceiling (DeckBuilder.true_div
                (Nat.max (length (DeckBuilder.front_cards self))
                         (length (DeckBuilder.back_cards self)))
                DeckBuilder.CARDS_PER_PAGE) /\
  DeckBuilder.total_pages self = Z.of_nat (page_count self).
Proof.
  unfold DeckBuilder.total_pages, page_count.
  set (a := length (DeckBuilder.front_cards self)).
  set (b := length (DeckBuilder.back_cards self)).
  assert (Hmax : DeckBuilder.max
                   (DeckBuilder.true_div a DeckBuilder.CARDS_PER_PAGE)
                   (DeckBuilder.true_div b DeckBuilder.CARDS_PER_PAGE) =
                 DeckBuilder.true_div (Nat.max a b) DeckBuilder.CARDS_PER_PAGE).
  { unfold DeckBuilder.max, DeckBuilder.true_div, Qle_bool. simpl Qnum.
    simpl Qden. destruct (Z.leb_spec (Z.of_nat b * 28) (Z.of_nat a * 28)).
    - now replace (Nat.max a b) with a by lia.
    - now replace (Nat.max a b) with b by lia. }
  rewrite Hmax. split; [reflexivity|].
  unfold DeckBuilder.true_div, Qceiling, Qfloor, Qopp.
  change (Pos.of_nat DeckBuilder.CARDS_PER_PAGE) with 28%positive.
  rewrite Nat2Z.inj_div, Nat2Z.inj_add. simpl (Z.of_nat 27).
  simpl (Z.of_nat 28). generalize (Z.of_nat (Nat.max a b)). intros z.
  cbn [Qnum Qden]. Z.div_mod_to_equations. lia.
Qed.

(** The column of the next card: back to 1 after every fourth card. *)
Lemma column_next (k : nat) :
  ((Z.of_nat k + 1) mod 4 =? 0)%Z = (k mod 4 =? 3) /\
  (if (k mod 4 =? 3)%nat then 1 else Z.of_nat (k mod 4) + 1 + 1)%Z =
    (Z.of_nat (S k mod 4) + 1)%Z.
Proof.
  pose proof (Nat.div_mod_eq k 4) as Hk.
  pose proof (Nat.mod_upper_bound k 4 ltac:(lia)) as Hr.
  pose proof (Nat.div_mod_eq (S k) 4) as Hk'.
  pose proof (Nat.mod_upper_bound (S k) 4 ltac:(lia)) as Hr'.
  split.
  - destruct (Nat.eqb_spec (k mod 4) 3) as [H|H].
    + apply Z.eqb_eq. Z.div_mod_to_equations. lia.
    + apply Z.eqb_neq. Z.div_mod_to_equations. lia.
  - destruct (Nat.eqb_spec (k mod 4) 3) as [H|H]; lia.
Qed.

Lemma while_step (S : Type) (cond : S -> bool) (body : S -> result S)
    (fuel : nat) (s s' : S) :
  cond s = true -> body s = Return s' ->
  while cond body (Datatypes.S fuel) s = while cond body fuel s'.
Proof. intros Hc Hb. simpl. now rewrite Hc, Hb. Qed.

(** A loop whose body keeps a state in which the condition holds never
    ends. *)
Lemma while_never_ends (S : Type) (cond : S -> bool) (body : S -> result S)
    (Inv : S -> Prop) :
  (forall s, Inv s -> cond s = true /\ exists s', body s = Return s' /\ Inv s') ->
  forall fuel s, Inv s -> while cond body fuel s = None.
Proof.
  intros Hstep. induction fuel as [|fuel IH]; intros s Hinv; [reflexivity|].
  destruct (Hstep s Hinv) as [Hc [s' [Hb Hinv']]].
  rewrite (while_step _ _ _ _ _ _ Hc Hb). now apply IH.
Qed.

Lemma more_pages_iff (self : DeckBuilder.t) (s : DeckBuilder.save_state) :
  DeckBuilder.more_pages self s = (DeckBuilder.page s <? page_count self).
Proof.
  unfold DeckBuilder.more_pages.
  destruct (total_pages_closed_form self) as [_ ->].
  destruct (Nat.ltb_spec (DeckBuilder.page s) (page_count self)).
  - apply Z.ltb_lt. lia.
  - apply Z.ltb_ge. lia.
Qed.

Lemma page_count_positive (self : DeckBuilder.t) :
  DeckBuilder.front_cards self <> [] \/ DeckBuilder.back_cards self <> [] ->
  0 < page_count self.
Proof.
  intros Hne. unfold page_count.
  assert (Hlen : 1 <= Nat.max (length (DeckBuilder.front_cards self))
                              (length (DeckBuilder.back_cards self))).
  { destruct Hne as [Hne|Hne];
      [destruct (DeckBuilder.front_cards self)
      |destruct (DeckBuilder.back_cards self)];
      try congruence; simpl length; lia. }
  apply Nat.div_str_pos. lia.
Qed.

Lemma drawable_page (deck : list string) (p : nat) :
  drawable deck -> drawable (page_of deck p).
Proof.
  unfold drawable, page_of. intros H.
  rewrite <- (firstn_skipn (28 * p) deck) in H.
  apply Forall_app in H as [_ H].
  rewrite <- (firstn_skipn 28 (skipn (28 * p) deck)) in H.
  now apply Forall_app in H as [H _].
Qed.

(** The inner loop keeps [cell] at the position of the next card on the page
    and [card_in_row] at its column, counted from 1. *)
Lemma render_card_step (self : DeckBuilder.t) (side : DeckBuilder.side_ref)
    (doc : list DeckBuilder.pdf_call) (k : nat) (card : string) :
  latin1 card = true ->
  DeckBuilder.render_card self side
    (doc, Z.of_nat k, (Z.of_nat (k mod 4) + 1)%Z) card =
  Return (doc ++ card_calls (list_eqb (DeckBuilder.deref self side)
                                      (DeckBuilder.back_cards self)) k card,
          Z.of_nat (S k), (Z.of_nat (S k mod 4) + 1)%Z).
Proof.
  intros Hlatin.
  unfold DeckBuilder.render_card, card_calls, font_size,
    DeckBuilder.CARD_WIDTH, DeckBuilder.CARD_HEIGHT.
  destruct (column_next k) as [Hwrap Hnext].
  rewrite Hlatin, Hwrap, <- Hnext.
  replace (Z.of_nat k + 1)%Z with (Z.of_nat (S k)) by lia.
  destruct (String.eqb card "*");
    destruct (list_eqb (DeckBuilder.deref self side)
                       (DeckBuilder.back_cards self));
    destruct (k mod 4 =? 3);
    rewrite <- ?app_assoc; reflexivity.
Qed.

(** A text outside latin-1 stops the loop, whatever its state. *)
Lemma render_card_raises (self : DeckBuilder.t) (side : DeckBuilder.side_ref)
    (st : DeckBuilder.row_state) (card : string) :
  latin1 card = false ->
  DeckBuilder.render_card self side st card =
  Raise FPDFUnicodeEncodingException.
Proof.
  intros Hlatin. destruct st as [[doc cell_no] card_in_row].
  unfold DeckBuilder.render_card. now rewrite Hlatin.
Qed.

Lemma render_card_continues (self : DeckBuilder.t)
    (side : DeckBuilder.side_ref) (st : DeckBuilder.row_state)
    (card : string) :
  latin1 card = true ->
  exists st', DeckBuilder.render_card self side st card = Return st'.
Proof.
  intros Hlatin. destruct st as [[doc cell_no] card_in_row].
  unfold DeckBuilder.render_card. rewrite Hlatin.
  destruct ((cell_no + 1) mod 4 =? 0)%Z; eauto.
Qed.

Lemma render_cards_spec (self : DeckBuilder.t) (side : DeckBuilder.side_ref)
    (cards : list string) :
  drawable cards ->
  forall doc k,
    for_each (DeckBuilder.render_card self side) cards
      (doc, Z.of_nat k, (Z.of_nat (k mod 4) + 1)%Z) =
    Return (doc ++ cards_calls (list_eqb (DeckBuilder.deref self side)
                                         (DeckBuilder.back_cards self)) k cards,
            Z.of_nat (k + length cards),
            (Z.of_nat ((k + length cards) mod 4) + 1)%Z).
Proof.
  induction 1 as [|card cards Hcard _ IH]; intros doc k;
    cbn [for_each length cards_calls].
  - now rewrite app_nil_r, Nat.add_0_r.
  - rewrite render_card_step by exact Hcard. cbn [bind].
    rewrite IH, <- app_assoc.
    now replace (S k + length cards) with (k + S (length cards)) by lia.
Qed.

Lemma render_cards_raise (self : DeckBuilder.t) (side : DeckBuilder.side_ref)
    (cards : list string) :
  Exists (fun card => latin1 card = false) cards ->
  forall st,
    for_each (DeckBuilder.render_card self side) cards st =
    Raise FPDFUnicodeEncodingException.
Proof.
  induction cards as [|card cards IH]; intros Hbad st.
  - inversion Hbad.
  - cbn [for_each]. destruct (latin1 card) eqn:Hlatin.
    + destruct (render_card_continues self side st card Hlatin) as [st' ->].
      cbn [bind]. apply IH.
      inversion Hbad as [? ? Hhead|? ? Htail]; [congruence | exact Htail].
    + now rewrite render_card_raises.
Qed.

(** When the inner loop returns, every card of the page could be drawn. *)
Lemma render_cards_returned (self : DeckBuilder.t)
    (side : DeckBuilder.side_ref) (cards : list string)
    (st st' : DeckBuilder.row_state) :
  for_each (DeckBuilder.render_card self side) cards st = Return st' ->
  drawable cards.
Proof.
  intros Hrun. unfold drawable. apply Forall_forall. intros card Hin.
  destruct (latin1 card) eqn:Hlatin; [reflexivity|]. exfalso.
  rewrite render_cards_raise in Hrun; [discriminate|].
  apply Exists_exists. now exists card.
Qed.

Lemma slice_page (deck : list string) (p : nat) :
  slice deck (p * DeckBuilder.CARDS_PER_PAGE)
             ((p + 1) * DeckBuilder.CARDS_PER_PAGE) = page_of deck p.
Proof.
  unfold slice, page_of, DeckBuilder.CARDS_PER_PAGE.
  replace ((p + 1) * 28 - p * 28) with 28 by lia.
  now replace (p * 28) with (28 * p) by lia.
Qed.

(** One turn of the outer loop: a page of the current side is added; then
    the loop goes to the back of the same page, or to the front of the next
    one. *)
Lemma render_side_spec (self : DeckBuilder.t) (s : DeckBuilder.save_state) :
  drawable (page_of (DeckBuilder.deref self (DeckBuilder.side s))
                    (DeckBuilder.page s)) ->
  DeckBuilder.render_side self s =
  Return
    (let deck := DeckBuilder.deref self (DeckBuilder.side s) in
     let doc :=
       DeckBuilder.pdf s
       ++ page_calls (list_eqb deck (DeckBuilder.back_cards self))
                     (page_of deck (DeckBuilder.page s)) in
     if truthy (DeckBuilder.back_cards self)
        && list_eqb deck (DeckBuilder.front_cards self)
     then {| DeckBuilder.pdf := doc;
             DeckBuilder.page := DeckBuilder.page s;
             DeckBuilder.side := DeckBuilder.Back |}
     else {| DeckBuilder.pdf := doc;
             DeckBuilder.page := DeckBuilder.page s + 1;
             DeckBuilder.side := DeckBuilder.Front |}).
Proof.
  intros Hdraw. unfold DeckBuilder.render_side. rewrite slice_page.
  pose proof (render_cards_spec self (DeckBuilder.side s) _ Hdraw
                (DeckBuilder.pdf s ++ [DeckBuilder.add_page; DeckBuilder.ln 10])
                0) as Hcards.
  simpl (Z.of_nat 0) in Hcards. simpl (Z.of_nat (0 mod 4) + 1)%Z in Hcards.
  rewrite Hcards. cbn [bind]. cbv zeta. unfold page_calls.
  rewrite <- app_assoc. simpl.
  destruct (truthy (DeckBuilder.back_cards self)
            && list_eqb (DeckBuilder.deref self (DeckBuilder.side s))
                        (DeckBuilder.front_cards self)); reflexivity.
Qed.

(** Where the loop goes after a turn that returns. *)
Lemma render_side_returns (self : DeckBuilder.t)
    (s s' : DeckBuilder.save_state) :
  DeckBuilder.render_side self s = Return s' ->
  drawable (page_of (DeckBuilder.deref self (DeckBuilder.side s))
                    (DeckBuilder.page s)) /\
  if truthy (DeckBuilder.back_cards self)
     && list_eqb (DeckBuilder.deref self (DeckBuilder.side s))
                 (DeckBuilder.front_cards self)
  then DeckBuilder.page s' = DeckBuilder.page s /\
       DeckBuilder.side s' = DeckBuilder.Back
  else DeckBuilder.page s' = DeckBuilder.page s + 1 /\
       DeckBuilder.side s' = DeckBuilder.Front.
Proof.
  unfold DeckBuilder.render_side. rewrite slice_page.
  destruct (for_each _ _ _) as [[[doc c] r]|e] eqn:Hrun; cbn [bind];
    [|discriminate].
  apply render_cards_returned in Hrun. intros Hret. split; [exact Hrun|].
  destruct (truthy (DeckBuilder.back_cards self)
            && list_eqb (DeckBuilder.deref self (DeckBuilder.side s))
                        (DeckBuilder.front_cards self));
    injection Hret as <-; now split.
Qed.

(** The loop from the front of page [p], [r] pages before the end, when the
    two decks differ or there is no back deck, and every card can be
    drawn. *)
Lemma save_loop_from (self : DeckBuilder.t) (r : nat) :
  DeckBuilder.back_cards self = [] \/
  DeckBuilder.front_cards self <> DeckBuilder.back_cards self ->
  drawable (DeckBuilder.front_cards self) ->
  drawable (DeckBuilder.back_cards self) ->
  forall p doc fuel,
    p + r = page_count self -> 2 * r < fuel ->
    while (DeckBuilder.more_pages self) (DeckBuilder.render_side self) fuel
      {| DeckBuilder.pdf := doc; DeckBuilder.page := p;
         DeckBuilder.side := DeckBuilder.Front |} =
    Some (Return {| DeckBuilder.pdf := doc ++ flat_map (sheet self) (seq p r);
                    DeckBuilder.page := page_count self;
                    DeckBuilder.side := DeckBuilder.Front |}).
Proof.
  intros Hgood Hdf Hdb. induction r as [|r IH]; intros p doc fuel Hp Hfuel.
  - destruct fuel as [|fuel]; [lia|]. simpl.
    rewrite more_pages_iff. simpl DeckBuilder.page.
    replace (p <? page_count self) with false
      by (symmetry; apply Nat.ltb_ge; lia).
    rewrite app_nil_r. now replace p with (page_count self) by lia.
  - destruct fuel as [|fuel]; [lia|].
    assert (Hmore : forall d sd,
              DeckBuilder.more_pages self
                {| DeckBuilder.pdf := d; DeckBuilder.page := p;
                   DeckBuilder.side := sd |} = true).
    { intros d sd. rewrite more_pages_iff. apply Nat.ltb_lt. simpl. lia. }
    assert (Hside : forall d sd,
              drawable (page_of (DeckBuilder.deref self
                                   (DeckBuilder.side
                                      {| DeckBuilder.pdf := d;
                                         DeckBuilder.page := p;
                                         DeckBuilder.side := sd |}))
                                (DeckBuilder.page
                                   {| DeckBuilder.pdf := d;
                                      DeckBuilder.page := p;
                                      DeckBuilder.side := sd |}))).
    { intros d sd. apply drawable_page. destruct sd; assumption. }
    rewrite (while_step _ _ _ _ _ _ (Hmore _ _)
               (render_side_spec _ _ (Hside _ _))).
    cbn [DeckBuilder.pdf DeckBuilder.page DeckBuilder.side DeckBuilder.deref].
    cbv zeta. rewrite list_eqb_refl. cbn [seq flat_map].
    assert (Hsheet : sheet self p =
              page_calls false (page_of (DeckBuilder.front_cards self) p)
              ++ match DeckBuilder.back_cards self with
                 | [] => []
                 | _ :: _ =>
                     page_calls true (page_of (DeckBuilder.back_cards self) p)
                 end) by reflexivity.
    rewrite Hsheet. clear Hsheet.
    destruct (DeckBuilder.back_cards self) as [|b back] eqn:Hback.
    + cbn [truthy andb]. rewrite app_nil_r.
      assert (Hfront : DeckBuilder.front_cards self <> []).
      { intros Hnil.
        assert (Hz : page_count self = 0)
          by (unfold page_count; rewrite Hnil, Hback; reflexivity).
        lia. }
      rewrite (list_eqb_neq _ _ Hfront).
      rewrite IH by lia. rewrite <- app_assoc.
      now replace (p + 1) with (S p) by lia.
    + cbn [truthy andb].
      assert (Hdiff : DeckBuilder.front_cards self <> b :: back)
        by (destruct Hgood as [H|H]; [discriminate | exact H]).
      rewrite (list_eqb_neq _ _ Hdiff).
      destruct fuel as [|fuel]; [lia|].
      rewrite (while_step _ _ _ _ _ _ (Hmore _ _)
                 (render_side_spec _ _ (Hside _ _))).
      cbn [DeckBuilder.pdf DeckBuilder.page DeckBuilder.side
           DeckBuilder.deref].
      cbv zeta. rewrite Hback, list_eqb_refl.
      rewrite (list_eqb_neq (b :: back) (DeckBuilder.front_cards self))
        by congruence.
      cbn [truthy andb]. rewrite IH by lia. rewrite <- !app_assoc.
      now replace (p + 1) with (S p) by lia.
Qed.

(** When the two decks differ, or there is no back deck, every card can be
    drawn and the file can be written, [save] ends and the document is made of
    the sheets in page order: the front page, then the back page if there is a
    back deck. *)
Lemma save_interleaves (E : env) (self : DeckBuilder.t) (filename : string)
    (fuel : nat) :
  DeckBuilder.back_cards self = [] \/
  DeckBuilder.front_cards self <> DeckBuilder.back_cards self ->
  drawable (DeckBuilder.front_cards self) ->
  drawable (DeckBuilder.back_cards self) ->
  output_error E filename = None ->
  2 * page_count self < fuel ->
  DeckBuilder.save E fuel self filename =
  Some (Return (document self filename)).
Proof.
  intros Hgood Hdf Hdb Hout Hfuel. unfold DeckBuilder.save.
  rewrite (save_loop_from self (page_count self) Hgood Hdf Hdb 0 [] fuel)
    by lia.
  cbn [bind_run]. now rewrite Hout.
Qed.

(** When the two decks have the same non-empty contents, the loop comes back
    to the back of page 0 for ever. *)
Lemma save_loop_stuck (self : DeckBuilder.t) (fuel : nat)
    (s : DeckBuilder.save_state) :
  DeckBuilder.front_cards self <> [] ->
  DeckBuilder.back_cards self = DeckBuilder.front_cards self ->
  drawable (DeckBuilder.front_cards self) ->
  DeckBuilder.page s = 0 ->
  while (DeckBuilder.more_pages self) (DeckBuilder.render_side self) fuel s =
  None.
Proof.
  intros Hne Heq Hdraw. revert fuel s.
  apply (while_never_ends _ _ _ (fun s => DeckBuilder.page s = 0)).
  intros s Hpage. split.
  - rewrite more_pages_iff, Hpage. apply Nat.ltb_lt.
    apply page_count_positive. now left.
  - eexists. split.
    + apply render_side_spec. apply drawable_page.
      destruct (DeckBuilder.side s); simpl; [|rewrite Heq]; exact Hdraw.
    + cbv zeta.
      assert (Hsame : list_eqb (DeckBuilder.deref self (DeckBuilder.side s))
                               (DeckBuilder.front_cards self) = true).
      { apply list_eqb_eq. destruct (DeckBuilder.side s); simpl; congruence. }
      rewrite Hsame, Heq.
      destruct (DeckBuilder.front_cards self); [congruence|]. exact Hpage.
Qed.

Lemma save_equal_decks (E : env) (self : DeckBuilder.t) (fuel : nat)
    (filename : string) :
  DeckBuilder.front_cards self <> [] ->
  DeckBuilder.back_cards self = DeckBuilder.front_cards self ->
  drawable (DeckBuilder.front_cards self) ->
  DeckBuilder.save E fuel self filename = None.
Proof.
  intros Hne Heq Hdraw. unfold DeckBuilder.save.
  now rewrite save_loop_stuck.
Qed.

(** With equal non-empty decks the loop stays on page 0 as long as it runs:
    it can stop on an exception, never on its condition. *)
Lemma save_equal_decks_no_document (E : env) (self : DeckBuilder.t)
    (fuel : nat) (filename : string) (doc : list DeckBuilder.pdf_call) :
  DeckBuilder.front_cards self <> [] ->
  DeckBuilder.back_cards self = DeckBuilder.front_cards self ->
  DeckBuilder.save E fuel self filename <> Some (Return doc).
Proof.
  intros Hne Heq. unfold DeckBuilder.save.
  destruct (while _ _ _ _) as [[s|e]|] eqn:Hrun; cbn [bind_run];
    try discriminate.
  exfalso.
  assert (Hstep : forall s1 s2,
            DeckBuilder.page s1 = 0 ->
            DeckBuilder.more_pages self s1 = true ->
            DeckBuilder.render_side self s1 = Return s2 ->
            DeckBuilder.page s2 = 0).
  { intros s1 s2 Hp _ Hbody. apply render_side_returns in Hbody as [_ Hnext].
    assert (Hsame : list_eqb (DeckBuilder.deref self (DeckBuilder.side s1))
                             (DeckBuilder.front_cards self) = true).
    { apply list_eqb_eq. destruct (DeckBuilder.side s1); simpl; congruence. }
    rewrite Hsame, Heq in Hnext.
    destruct (DeckBuilder.front_cards self); [congruence|].
    simpl in Hnext. destruct Hnext as [-> _]. exact Hp. }
  destruct (while_returns _ _ _ (fun s => DeckBuilder.page s = 0) Hstep
              fuel {| DeckBuilder.pdf := []; DeckBuilder.page := 0;
                      DeckBuilder.side := DeckBuilder.Front |} s
              eq_refl Hrun) as [Hpage Hcond].
  rewrite more_pages_iff, Hpage in Hcond. apply Nat.ltb_ge in Hcond.
  pose proof (page_count_positive self (or_introl Hne)). lia.
Qed.

(** C4, at an input where the code departs from it.  Both sides are built
    from the file with the single record [A,1], without wildcards: the two
    decks hold the one card A, the page count is 1, and [save] produces no
    document, whatever the fuel: after the front page the loop renders the
    back of page 0 again and again.  (For decks that differ,
    [save_interleaves] gives the document of the claim.) *)
Theorem save_same_file_twice (fuel : nat) :
  exists g self,
    DeckBuilder.__init__ Example.E 1 Example.counter "one.csv"
      (Some "one.csv") 0 "," = Some (Return (g, self)) /\
    DeckBuilder.front_cards self = ["A"] /\
    DeckBuilder.back_cards self = ["A"] /\
    DeckBuilder.total_pages self = 1%Z /\
    DeckBuilder.save Example.E fuel self "cards.pdf" = None.
Proof.
  eexists. eexists. split; [reflexivity|]. simpl.
  repeat split. apply save_equal_decks; simpl; try congruence.
  repeat constructor.
Qed.

(** C5, as the code has it.  The wildcard entry is the one-character string
    "*".  For each card the renderer sets the font once, before the cell, and
    the size is 32 exactly when the text of the card is "*", 14 otherwise; the
    card is drawn when its text is in latin-1, and [pdf.cell] raises when it
    is not.  The text "*" is in latin-1.  So every entry of the wildcard step
    is set in 32, and so is every copy of a record of the file whose text is
    "*". *)
Theorem wildcard_font_by_text (self : DeckBuilder.t)
    (side : DeckBuilder.side_ref) (doc : list DeckBuilder.pdf_call)
    (cell_no card_in_row : Z) (card : string) :
  (latin1 card = true ->
   exists rest cell_no' card_in_row',
     DeckBuilder.render_card self side (doc, cell_no, card_in_row) card =
       Return (doc ++ DeckBuilder.set_font "helvetica" "B" (font_size card)
                        :: rest, cell_no', card_in_row') /\
     forall family style size,
       ~ In (DeckBuilder.set_font family style size) rest) /\
  (latin1 card = false ->
   DeckBuilder.render_card self side (doc, cell_no, card_in_row) card =
     Raise FPDFUnicodeEncodingException) /\
  (font_size card = 32%Z <-> card = DeckBuilder.wildcard) /\
  (font_size card = 14%Z <-> card <> DeckBuilder.wildcard) /\
  latin1 DeckBuilder.wildcard = true /\
  (forall E n more,
     list_mul E [DeckBuilder.wildcard] n = Return more ->
     Forall (fun c => font_size c = 32%Z) more) /\
  (forall E cards field rest n,
     int E field = Some n ->
     index_sized E n = true ->
     (Z.of_nat (length cards) + Z.max 0 n <= Z.of_N (capacity E))%Z ->
     exists loaded,
       DeckBuilder.load_row E cards ("*" :: field :: rest) =
         Return (cards ++ loaded) /\
       Forall (fun c => font_size c = 32%Z) loaded).
Proof.
  split; [|split; [|split; [|split; [|split; [|split]]]]].
  - intros Hlatin. unfold DeckBuilder.render_card, font_size.
    rewrite Hlatin.
    destruct (String.eqb card "*");
      destruct (list_eqb (DeckBuilder.deref self side)
                         (DeckBuilder.back_cards self));
      destruct ((cell_no + 1) mod 4 =? 0)%Z;
      rewrite <- ?app_assoc; cbn [app];
      eexists; eexists; eexists; (split; [reflexivity|]);
      intros family style size Hin; simpl in Hin;
      repeat (destruct Hin as [Hin|Hin]; [discriminate|]); exact Hin.
  - apply render_card_raises.
  - unfold font_size, DeckBuilder.wildcard.
    destruct (String.eqb_spec card "*"); split; congruence.
  - unfold font_size, DeckBuilder.wildcard.
    destruct (String.eqb_spec card "*"); split; congruence.
  - reflexivity.
  - intros E n more Hmul. apply list_mul_returns in Hmul as [-> _].
    apply Forall_forall. intros c Hc. apply repeat_spec in Hc. now subst c.
  - intros E cards field rest n Hn Hidx Hfit.
    exists (repeat "*" (Z.to_nat n)). split.
    + rewrite load_row_cases, Hn. now apply append_copies.
    + apply Forall_forall. intros c Hc. apply repeat_spec in Hc. now subst c.
Qed.

Lemma wildcard_font_by_text_witness :
  exists rest cell_no' card_in_row',
    DeckBuilder.render_card
      {| DeckBuilder.front_cards := ["*"]; DeckBuilder.back_cards := [] |}
      DeckBuilder.Front ([], 0%Z, 1%Z) "*" =
      Return ([] ++ DeckBuilder.set_font "helvetica" "B" 32 :: rest,
              cell_no', card_in_row') /\
    forall family style size,
      ~ In (DeckBuilder.set_font family style size) rest.
Proof.
  apply (wildcard_font_by_text
           {| DeckBuilder.front_cards := ["*"]; DeckBuilder.back_cards := [] |}
           DeckBuilder.Front [] 0%Z 1%Z "*").
  reflexivity.
Defined.

(** C5 as stated fails: the file has the record [*,1], no wildcard is asked
    for, so that every entry of the deck comes from the file; the first card
    is set in the wildcard font. *)
Lemma loaded_star_in_wildcard_font :
  exists g self doc,
    DeckBuilder.__init__ Example.E 0 Example.counter "star.csv" None 0 "," =
      Some (Return (g, self)) /\
    DeckBuilder.load_csv Example.E "star.csv" "," =
      Return (DeckBuilder.front_cards self) /\
    DeckBuilder.front_cards self = ["*"; "A"] /\
    DeckBuilder.save Example.E 2 self "cards.pdf" = Some (Return doc) /\
    firstn 4 doc =
      [DeckBuilder.add_page; DeckBuilder.ln 10;
       DeckBuilder.set_font "helvetica" "B" 32; DeckBuilder.cell 48 "*"].
Proof.
  eexists. eexists. eexists. split; [reflexivity|]. simpl.
  repeat split.
Qed.

(** C8, where the code departs from it.  When the back deck has the same
    contents as the front deck and they are not empty, [save] never writes a
    document; when the cards can be drawn (texts in latin-1) the loop never
    ends: no amount of fuel is enough. *)
Theorem save_never_ends_on_equal_decks (E : env) (self : DeckBuilder.t)
    (fuel : nat) (filename : string) :
  DeckBuilder.front_cards self <> [] ->
  DeckBuilder.back_cards self = DeckBuilder.front_cards self ->
  (drawable (DeckBuilder.front_cards self) ->
   DeckBuilder.save E fuel self filename = None) /\
  (forall doc, DeckBuilder.save E fuel self filename <> Some (Return doc)).
Proof.
  intros Hne Heq. split.
  - now apply save_equal_decks.
  - intros doc. now apply save_equal_decks_no_document.
Qed.

Lemma save_never_ends_on_equal_decks_witness :
  DeckBuilder.save Example.E 1000
    {| DeckBuilder.front_cards := ["A"; "*"];
       DeckBuilder.back_cards := ["A"; "*"] |} "cards.pdf" = None.
Proof.
  apply save_never_ends_on_equal_decks; simpl;
    [discriminate | reflexivity | repeat constructor].
Defined.

(** ** Further properties of the renderer *)

(** X8.  The page count that [save] computes from the two quotients is the
    least number of pages of 28 cards that hold the longer deck. *)
Theorem total_pages_least_cover (self : DeckBuilder.t) :
  let longer := Nat.max (length (DeckBuilder.front_cards self))
                        (length (DeckBuilder.back_cards self)) in
  exists pages,
    DeckBuilder.total_pages self = Z.of_nat pages /\
    longer <= 28 * pages /\
    (forall n, longer <= 28 * n -> pages <= n) /\
    (pages = 0 <-> DeckBuilder.front_cards self = [] /\
                   DeckBuilder.back_cards self = []).
Proof.
  intros longer. exists (page_count self).
  destruct (total_pages_closed_form self) as [_ Hpages].
  split; [exact Hpages|]. unfold page_count. fold longer.
  pose proof (Nat.div_mod_eq (longer + 27) 28) as Hdiv.
  pose proof (Nat.mod_upper_bound (longer + 27) 28 ltac:(lia)) as Hmod.
  split; [lia|]. split; [intros n Hn; lia|].
  split.
  - intros Hz. assert (Hl : longer = 0) by lia. unfold longer in Hl.
    destruct (DeckBuilder.front_cards self), (DeckBuilder.back_cards self);
      simpl in Hl; try lia. now split.
  - intros [Hf Hb]. unfold longer in *. rewrite Hf, Hb in *. simpl in *.
    reflexivity.
Qed.

(** The calls for the cards of a page, written out card by card. *)
Lemma cards_calls_unfolded (mirror : bool) (cards : list string) :
  forall k,
    cards_calls mirror k cards =
    flat_map
      (fun kc : nat * string =>
         [DeckBuilder.set_font "helvetica" "B"
            (if String.eqb (snd kc) "*" then 32 else 14)%Z]
         ++ (if mirror
             then [DeckBuilder.set_x
                     (- (48 * (Z.of_nat (fst kc mod 4) + 1) + 9))]
             else [])
         ++ [DeckBuilder.cell 48 (snd kc)]
         ++ (if fst kc mod 4 =? 3 then [DeckBuilder.ln 40] else []))
      (combine (seq k (length cards)) cards).
Proof.
  induction cards as [|card cards IH]; intros k; [reflexivity|].
  cbn [cards_calls length seq combine flat_map fst snd].
  rewrite IH. f_equal. unfold card_calls, font_size.
  replace (- 48 * (Z.of_nat (k mod 4) + 1) - 9)%Z
    with (- (48 * (Z.of_nat (k mod 4) + 1) + 9))%Z by lia.
  reflexivity.
Qed.

(** X9.  The inner loop of [save] on the cards of one page, all in latin-1,
    makes exactly these calls, card after card: for the card at position [k]
    (from 0) [set_font] with size 32 for "*" and 14 otherwise; then, only when
    the contents of the side equal the back deck, [set_x] at
    [-(48 * c + 9)] for the column [c = k mod 4 + 1]; then the [cell] with the
    text; then, after every fourth card, [ln] of one card height.  [cell] ends
    at the number of cards.  When some card is not in latin-1 the loop raises
    the exception of [pdf.cell]. *)
Theorem render_page_layout (self : DeckBuilder.t)
    (side : DeckBuilder.side_ref) (cards : list string) :
  let mirror := list_eqb (DeckBuilder.deref self side)
                         (DeckBuilder.back_cards self) in
  (drawable cards ->
   for_each (DeckBuilder.render_card self side) cards ([], 0%Z, 1%Z) =
   Return
     (flat_map
        (fun kc : nat * string =>
           [DeckBuilder.set_font "helvetica" "B"
              (if String.eqb (snd kc) "*" then 32 else 14)%Z]
           ++ (if mirror
               then [DeckBuilder.set_x
                       (- (48 * (Z.of_nat (fst kc mod 4) + 1) + 9))]
               else [])
           ++ [DeckBuilder.cell 48 (snd kc)]
           ++ (if fst kc mod 4 =? 3 then [DeckBuilder.ln 40] else []))
        (combine (seq 0 (length cards)) cards),
      Z.of_nat (length cards),
      (Z.of_nat (length cards mod 4) + 1)%Z)) /\
  (Exists (fun card => latin1 card = false) cards ->
   for_each (DeckBuilder.render_card self side) cards ([], 0%Z, 1%Z) =
   Raise FPDFUnicodeEncodingException).
Proof.
  intros mirror. split.
  - intros Hdraw.
    pose proof (render_cards_spec self side cards Hdraw [] 0) as Hrun.
    change (Z.of_nat 0) with 0%Z in Hrun.
    change (Z.of_nat (0 mod 4) + 1)%Z with 1%Z in Hrun.
    rewrite Hrun. cbn [app Nat.add]. fold mirror.
    now rewrite cards_calls_unfolded.
  - intros Hbad. now apply render_cards_raise.
Qed.

Lemma render_page_layout_witness :
  for_each (DeckBuilder.render_card
              {| DeckBuilder.front_cards := ["A"]; DeckBuilder.back_cards :=
                   ["x"; "*"] |} DeckBuilder.Back)
           ["x"; "*"] ([], 0%Z, 1%Z) =
  Return ([DeckBuilder.set_font "helvetica" "B" 14; DeckBuilder.set_x (-57);
           DeckBuilder.cell 48 "x";
           DeckBuilder.set_font "helvetica" "B" 32; DeckBuilder.set_x (-105);
           DeckBuilder.cell 48 "*"], 2%Z, 3%Z).
Proof.
  apply (render_page_layout
           {| DeckBuilder.front_cards := ["A"];
              DeckBuilder.back_cards := ["x"; "*"] |} DeckBuilder.Back
           ["x"; "*"]).
  repeat constructor.
Defined.

Lemma firstn_plus (A : Type) (a b : nat) :
  forall l : list A, firstn (a + b) l = firstn a l ++ firstn b (skipn a l).
Proof.
  induction a as [|a IH]; intros [|x l]; simpl; try reflexivity.
  - now rewrite firstn_nil.
  - now rewrite IH.
Qed.

(** Cutting a deck into pages loses nothing and repeats nothing. *)
Lemma pages_cover (deck : list string) (r : nat) :
  forall p,
    flat_map (page_of deck) (seq p r) = firstn (28 * r) (skipn (28 * p) deck).
Proof.
  induction r as [|r IH]; intros p; cbn [seq flat_map].
  - reflexivity.
  - rewrite IH. unfold page_of.
    replace (28 * S r) with (28 + 28 * r) by lia.
    rewrite firstn_plus, skipn_skipn. do 3 f_equal. lia.
Qed.

Lemma pages_cover_all (deck : list string) (n : nat) :
  length deck <= 28 * n -> flat_map (page_of deck) (seq 0 n) = deck.
Proof.
  intros Hn. rewrite pages_cover. simpl skipn. now apply firstn_all2.
Qed.

Lemma page_count_covers (self : DeckBuilder.t) :
  length (DeckBuilder.front_cards self) <= 28 * page_count self /\
  length (DeckBuilder.back_cards self) <= 28 * page_count self.
Proof.
  unfold page_count.
  set (longer := Nat.max _ _).
  pose proof (Nat.div_mod_eq (longer + 27) 28).
  pose proof (Nat.mod_upper_bound (longer + 27) 28 ltac:(lia)).
  unfold longer in *. lia.
Qed.

Lemma cell_texts_app (a b : list DeckBuilder.pdf_call) :
  cell_texts (a ++ b) = cell_texts a ++ cell_texts b.
Proof.
  induction a as [|c a IH]; simpl; [reflexivity|].
  destruct c; simpl; now rewrite IH.
Qed.

Lemma pages_added_app (a b : list DeckBuilder.pdf_call) :
  pages_added (a ++ b) = pages_added a + pages_added b.
Proof.
  induction a as [|c a IH]; simpl; [reflexivity|].
  destruct c; simpl; now rewrite IH.
Qed.

Lemma cards_calls_observed (mirror : bool) (cards : list string) :
  forall k,
    cell_texts (cards_calls mirror k cards) = cards /\
    pages_added (cards_calls mirror k cards) = 0.
Proof.
  induction cards as [|card cards IH]; intros k; [now split|].
  destruct (IH (S k)) as [Ht Hp]. cbn [cards_calls].
  rewrite cell_texts_app, pages_added_app, Ht, Hp. unfold card_calls.
  destruct mirror; destruct (k mod 4 =? 3); now split.
Qed.

Lemma page_calls_observed (mirror : bool) (cards : list string) :
  cell_texts (page_calls mirror cards) = cards /\
  pages_added (page_calls mirror cards) = 1.
Proof.
  unfold page_calls. cbn [cell_texts pages_added].
  destruct (cards_calls_observed mirror cards 0) as [Ht Hp].
  now rewrite Ht, Hp.
Qed.

Lemma page_of_nil (p : nat) : page_of [] p = [].
Proof. unfold page_of. now rewrite skipn_nil, firstn_nil. Qed.

Lemma sheet_observed (self : DeckBuilder.t) (p : nat) :
  cell_texts (sheet self p) =
    page_of (DeckBuilder.front_cards self) p
    ++ page_of (DeckBuilder.back_cards self) p /\
  pages_added (sheet self p) =
    (if truthy (DeckBuilder.back_cards self) then 2 else 1).
Proof.
  unfold sheet. rewrite cell_texts_app, pages_added_app.
  destruct (page_calls_observed false
              (page_of (DeckBuilder.front_cards self) p)) as [-> ->].
  destruct (DeckBuilder.back_cards self) as [|b back] eqn:Hb.
  - rewrite page_of_nil. now split.
  - destruct (page_calls_observed true (page_of (b :: back) p)) as [-> ->].
    now split.
Qed.

Lemma sheets_observed (self : DeckBuilder.t) (pages : list nat) :
  cell_texts (flat_map (sheet self) pages) =
    flat_map (fun p => page_of (DeckBuilder.front_cards self) p
                       ++ page_of (DeckBuilder.back_cards self) p) pages /\
  pages_added (flat_map (sheet self) pages) =
    length pages * (if truthy (DeckBuilder.back_cards self) then 2 else 1).
Proof.
  induction pages as [|p pages [IHt IHp]]; cbn [flat_map length].
  - now split.
  - rewrite cell_texts_app, pages_added_app, IHt, IHp.
    destruct (sheet_observed self p) as [-> ->]. split; [reflexivity | lia].
Qed.

Lemma document_cells (self : DeckBuilder.t) (filename : string) :
  cell_texts (document self filename) =
  flat_map (fun p => page_of (DeckBuilder.front_cards self) p
                     ++ page_of (DeckBuilder.back_cards self) p)
           (seq 0 (page_count self)).
Proof.
  unfold document. rewrite cell_texts_app.
  destruct (sheets_observed self (seq 0 (page_count self))) as [-> _].
  simpl. now rewrite app_nil_r.
Qed.

Lemma document_pages (self : DeckBuilder.t) (filename : string) :
  pages_added (document self filename) =
  page_count self * (if truthy (DeckBuilder.back_cards self) then 2 else 1).
Proof.
  unfold document. rewrite pages_added_app.
  destruct (sheets_observed self (seq 0 (page_count self))) as [_ ->].
  rewrite length_seq. simpl. lia.
Qed.

(** X10.  When the back deck is empty or its contents differ from the front
    deck's, every card text is in latin-1 and the output file can be written,
    [save] ends (fuel above twice the page count is enough) and the document
    is: for each page in order, the front cards of the page unmirrored, then,
    if there is a back deck, the back cards of the same page mirrored; the
    call of [output] comes last.  One page is added per side and page. *)
Theorem save_alternates_sides (E : env) (self : DeckBuilder.t)
    (filename : string) (fuel : nat) :
  DeckBuilder.back_cards self = [] \/
  DeckBuilder.front_cards self <> DeckBuilder.back_cards self ->
  drawable (DeckBuilder.front_cards self) ->
  drawable (DeckBuilder.back_cards self) ->
  output_error E filename = None ->
  2 * page_count self < fuel ->
  exists doc,
    DeckBuilder.save E fuel self filename = Some (Return doc) /\
    doc = flat_map (sheet self) (seq 0 (page_count self))
          ++ [DeckBuilder.output filename] /\
    DeckBuilder.total_pages self = Z.of_nat (page_count self) /\
    pages_added doc =
      page_count self
      * (if truthy (DeckBuilder.back_cards self) then 2 else 1).
Proof.
  intros Hgood Hdf Hdb Hout Hfuel. exists (document self filename).
  split; [now apply save_interleaves|]. split; [reflexivity|].
  split; [apply total_pages_closed_form | apply document_pages].
Qed.

Lemma save_alternates_sides_witness :
  exists doc,
    DeckBuilder.save Example.E 3
      {| DeckBuilder.front_cards := ["A"; "*"];
         DeckBuilder.back_cards := ["x"; "*"] |} "cards.pdf" =
      Some (Return doc) /\
    doc = flat_map (sheet {| DeckBuilder.front_cards := ["A"; "*"];
                             DeckBuilder.back_cards := ["x"; "*"] |})
            (seq 0 1) ++ [DeckBuilder.output "cards.pdf"] /\
    DeckBuilder.total_pages
      {| DeckBuilder.front_cards := ["A"; "*"];
         DeckBuilder.back_cards := ["x"; "*"] |} = 1%Z /\
    pages_added doc = 2.
Proof.
  apply (save_alternates_sides Example.E
           {| DeckBuilder.front_cards := ["A"; "*"];
              DeckBuilder.back_cards := ["x"; "*"] |} "cards.pdf" 3).
  - right. simpl. discriminate.
  - repeat constructor.
  - repeat constructor.
  - reflexivity.
  - vm_compute. lia.
Defined.

(** X11.  In the document that [save] writes (decks that differ or no back
    deck, texts in latin-1, a file that can be written) the cells are, page
    after page, the front cards of the page followed by the back cards of the
    page; the pages of a deck put end to end are the deck itself, so that
    every card of either deck is drawn exactly once, in deck order; with no
    back deck the cells are the front deck. *)
Theorem save_draws_every_card_once (E : env) (self : DeckBuilder.t)
    (filename : string) (fuel : nat) :
  DeckBuilder.back_cards self = [] \/
  DeckBuilder.front_cards self <> DeckBuilder.back_cards self ->
  drawable (DeckBuilder.front_cards self) ->
  drawable (DeckBuilder.back_cards self) ->
  output_error E filename = None ->
  2 * page_count self < fuel ->
  exists doc,
    DeckBuilder.save E fuel self filename = Some (Return doc) /\
    cell_texts doc =
      flat_map (fun p => page_of (DeckBuilder.front_cards self) p
                         ++ page_of (DeckBuilder.back_cards self) p)
               (seq 0 (page_count self)) /\
    flat_map (page_of (DeckBuilder.front_cards self))
             (seq 0 (page_count self)) = DeckBuilder.front_cards self /\
    flat_map (page_of (DeckBuilder.back_cards self))
             (seq 0 (page_count self)) = DeckBuilder.back_cards self /\
    (DeckBuilder.back_cards self = [] ->
     cell_texts doc = DeckBuilder.front_cards self).
Proof.
  intros Hgood Hdf Hdb Hout Hfuel. exists (document self filename).
  destruct (page_count_covers self) as [Hcf Hcb].
  split; [now apply save_interleaves|].
  split; [apply document_cells|].
  split; [now apply pages_cover_all|].
  split; [now apply pages_cover_all|].
  intros Hb. rewrite document_cells, Hb.
  transitivity (flat_map (page_of (DeckBuilder.front_cards self))
                         (seq 0 (page_count self)));
    [|now apply pages_cover_all].
  apply flat_map_ext. intros p. now rewrite page_of_nil, app_nil_r.
Qed.

Lemma save_draws_every_card_once_witness :
  exists doc,
    DeckBuilder.save Example.E 3
      {| DeckBuilder.front_cards := ["A"; "A"; "B"; "*"];
         DeckBuilder.back_cards := [] |} "cards.pdf" = Some (Return doc) /\
    cell_texts doc = ["A"; "A"; "B"; "*"].
Proof.
  destruct (save_draws_every_card_once Example.E
              {| DeckBuilder.front_cards := ["A"; "A"; "B"; "*"];
                 DeckBuilder.back_cards := [] |} "cards.pdf" 3)
    as [doc [Hrun [_ [_ [_ Hcells]]]]].
  - left. reflexivity.
  - repeat constructor.
  - constructor.
  - reflexivity.
  - vm_compute. lia.
  - exists doc. split; [exact Hrun|]. now apply Hcells.
Defined.

(** X12.  For decks whose texts are all in latin-1 and an output file that
    can be written, [save] writes a document exactly when the back deck is
    empty or its contents differ from the front deck's; in the other case, two
    equal non-empty decks, it never does. *)
Theorem save_ends_iff_decks_differ (E : env) (self : DeckBuilder.t)
    (filename : string) :
  drawable (DeckBuilder.front_cards self) ->
  drawable (DeckBuilder.back_cards self) ->
  output_error E filename = None ->
  ((exists fuel doc,
      DeckBuilder.save E fuel self filename = Some (Return doc))
   <->
   (DeckBuilder.back_cards self = [] \/
    DeckBuilder.front_cards self <> DeckBuilder.back_cards self)).
Proof.
  intros Hdf Hdb Hout. split.
  - intros [fuel [doc Hrun]].
    destruct (list_eq_dec string_dec (DeckBuilder.front_cards self)
                (DeckBuilder.back_cards self)) as [Heq|Hne];
      [|now right].
    destruct (DeckBuilder.back_cards self) as [|b back] eqn:Hb;
      [now left|].
    exfalso. revert Hrun. apply save_equal_decks_no_document; congruence.
  - intros Hgood. exists (S (2 * page_count self)), (document self filename).
    apply save_interleaves; try assumption. lia.
Qed.

Lemma save_ends_iff_decks_differ_witness :
  (exists fuel doc,
     DeckBuilder.save Example.E fuel
       {| DeckBuilder.front_cards := ["A"; "*"];
          DeckBuilder.back_cards := ["x"; "*"] |} "cards.pdf" =
     Some (Return doc))
  <->
  ([ "x"; "*" ] = [] \/ ["A"; "*"] <> ["x"; "*"]).
Proof.
  apply (save_ends_iff_decks_differ Example.E
           {| DeckBuilder.front_cards := ["A"; "*"];
              DeckBuilder.back_cards := ["x"; "*"] |} "cards.pdf");
    try reflexivity; repeat constructor.
Defined.

(** ** The script, end to end *)

Lemma document_single_deck (front : list string) (filename : string) :
  let self := {| DeckBuilder.front_cards := front;
                 DeckBuilder.back_cards := [] |} in
  cell_texts (document self filename) = front /\
  pages_added (document self filename) = (length front + 27) / 28.
Proof.
  intros self. split.
  - rewrite document_cells. simpl.
    transitivity (flat_map (page_of front) (seq 0 (page_count self))).
    + apply flat_map_ext. intros p. now rewrite page_of_nil, app_nil_r.
    + apply pages_cover_all. apply (page_count_covers self).
  - rewrite document_pages. unfold page_count. simpl.
    rewrite Nat.max_0_r. lia.
Qed.

Lemma drawable_wildcards (k : nat) : drawable (repeat DeckBuilder.wildcard k).
Proof.
  apply Forall_forall. intros c Hc. apply repeat_spec in Hc. now subst c.
Qed.

(** A rearrangement of a deck and of copies of its cards can be drawn when
    the deck can. *)
Lemma drawable_rearranged (deck deck' more : list string) :
  drawable deck ->
  Permutation deck' (deck ++ more) ->
  Forall (fun x => In x deck) more ->
  drawable deck'.
Proof.
  unfold drawable. intros Hd Hp Hmore. rewrite Forall_forall in *.
  intros x Hx. apply (Permutation_in _ Hp) in Hx.
  apply in_app_or in Hx as [Hx|Hx]; auto.
Qed.

(** X13.  A run on one file that is read to its end, whose records all have
    an index-sized integer weight and a text in latin-1, with an index-sized
    integer wildcard option, cards that fit in a list and an output file that
    can be written, writes a document: its cells are the cards of the records
    in file order, each as often as its weight, followed by the wildcards; it
    has one page per 28 cards, the last one possibly partial; the call of
    [output] with the name given comes last. *)
Theorem main_single_file (E : env) (fuel : nat) (g : rng) (args : arguments)
    (rows : list (list string)) (n : Z) :
  DeckBuilder.given (BACK_CSV args) = None ->
  int E (opt_wildcards args) = Some n ->
  (- maxsize E - 1 <= n <= maxsize E)%Z ->
  open_csv E (FRONT_CSV args) (opt_delimiter args) =
    Return {| records := rows; failure := None |} ->
  Forall (fun row => exists w, weight_of E row = Some w /\
                               (- maxsize E - 1 <= w <= maxsize E)%Z) rows ->
  (Z.of_nat (length (expand E rows)) + Z.max 0 n <= Z.of_N (capacity E))%Z ->
  drawable (expand E rows) ->
  output_error E (opt_output args) = None ->
  2 * ((length (expand E rows) + Z.to_nat n + 27) / 28) < fuel ->
  exists body,
    main E fuel g args =
      Some (Return (body ++ [DeckBuilder.output (opt_output args)])) /\
    cell_texts body = expand E rows ++ repeat "*" (Z.to_nat n) /\
    pages_added body = (length (expand E rows) + Z.to_nat n + 27) / 28.
Proof.
  intros Hback Hint Hn Hopen Hrows Hfit Hdraw Hout Hfuel.
  pose proof (ranged_usable E rows Hrows) as Hus.
  assert (Hload : DeckBuilder.load_csv E (FRONT_CSV args) (opt_delimiter args)
                  = Return (expand E rows)).
  { apply load_csv_well_formed; [exact Hopen | exact Hus |].
    rewrite <- length_expand. lia. }
  assert (Hidx : index_sized E n = true).
  { unfold index_sized. apply andb_true_iff. split; apply Z.leb_le; lia. }
  unfold main, DeckBuilder.to_int. rewrite Hint. cbn [bind_run].
  rewrite (construct_one_file E fuel g _ _ n _ _ Hback Hload), Hidx.
  cbn [negb].
  assert (Hroom : (0 <? n)%Z
                  && negb (fits E (Z.of_nat (length (expand E rows)) + n))
                  = false).
  { destruct (Z.ltb_spec 0 n) as [Hpos|Hpos]; [|reflexivity].
    unfold fits.
    replace (Z.of_nat (length (expand E rows)) + n <=? Z.of_N (capacity E))%Z
      with true by (symmetry; apply Z.leb_le; lia).
    reflexivity. }
  rewrite Hroom. cbn [bind_run snd].
  set (front := expand E rows ++ repeat DeckBuilder.wildcard (Z.to_nat n)).
  set (self := {| DeckBuilder.front_cards := front;
                  DeckBuilder.back_cards := [] |}).
  assert (Hlen : length front = length (expand E rows) + Z.to_nat n).
  { unfold front. now rewrite length_app, repeat_length. }
  assert (Hpc : page_count self = (length front + 27) / 28).
  { unfold page_count. simpl. now rewrite Nat.max_0_r. }
  rewrite (save_interleaves E self (opt_output args) fuel).
  - destruct (document_single_deck front (opt_output args))
      as [Hcells Hpages].
    fold self in Hcells, Hpages. unfold document in *.
    exists (flat_map (sheet self) (seq 0 (page_count self))).
    split; [reflexivity|].
    rewrite cell_texts_app in Hcells. rewrite pages_added_app in Hpages.
    simpl in Hcells, Hpages. rewrite app_nil_r in Hcells.
    rewrite Nat.add_0_r in Hpages. rewrite <- Hlen. now split.
  - now left.
  - apply Forall_app. split; [exact Hdraw | apply drawable_wildcards].
  - constructor.
  - exact Hout.
  - rewrite Hpc, Hlen. exact Hfuel.
Qed.

Lemma main_single_file_witness :
  exists body,
    main Example.E 3 Example.counter
      {| FRONT_CSV := "front.csv"; BACK_CSV := None; opt_wildcards := "1";
         opt_delimiter := ","; opt_output := "cards.pdf" |} =
      Some (Return (body ++ [DeckBuilder.output "cards.pdf"])) /\
    cell_texts body = ["A"; "A"; "B"; "*"] /\
    pages_added body = 1.
Proof.
  apply (main_single_file Example.E 3 Example.counter
           {| FRONT_CSV := "front.csv"; BACK_CSV := None;
              opt_wildcards := "1"; opt_delimiter := ",";
              opt_output := "cards.pdf" |}
           [["A"; "2"]; ["B"; "1"]] 1); try reflexivity.
  - simpl. lia.
  - repeat constructor; eexists; (split; [reflexivity | simpl; lia]).
  - vm_compute. discriminate.
  - repeat constructor.
  - vm_compute. lia.
Defined.

Lemma length_flat_map_pair (A : Type) (f h : nat -> list A) (l : list nat) :
  length (flat_map (fun p => f p ++ h p) l) =
  length (flat_map f l) + length (flat_map h l).
Proof.
  induction l as [|p l IH]; simpl; [reflexivity|].
  rewrite !length_app, IH. lia.
Qed.

(** A text that is on one side only tells the two final decks apart. *)
Lemma decks_differ (t : string) (front back front' back' more more' : list string)
    (n : nat) :
  t <> DeckBuilder.wildcard ->
  In t front -> ~ In t back ->
  Permutation front' (front ++ more') ->
  Permutation back' (back ++ more) ->
  Forall (fun x => In x back) more ->
  front' ++ repeat DeckBuilder.wildcard n <>
  back' ++ repeat DeckBuilder.wildcard n.
Proof.
  intros Hstar Hin Hnot Hpf Hpb Hmore Heq.
  assert (Hf : In t (front' ++ repeat DeckBuilder.wildcard n)).
  { apply in_or_app. left.
    eapply Permutation_in; [symmetry; exact Hpf |].
    apply in_or_app. now left. }
  rewrite Heq in Hf. apply in_app_or in Hf as [Hf|Hf].
  - apply (Permutation_in _ Hpb) in Hf. apply in_app_or in Hf as [Hf|Hf].
    + contradiction.
    + rewrite Forall_forall in Hmore. apply Hnot. now apply Hmore.
  - apply repeat_spec in Hf. contradiction.
Qed.

(** X14.  A run on two files that both load to non-empty decks of texts in
    latin-1, where some text other than "*" is on a card of one file and on no
    card of the other, with an index-sized wildcard count, decks that fit in a
    list and an output file that can be written, writes a document whatever
    the random draws: with [cards] the length of the longer loaded deck plus
    the wildcards, it has two pages (front and back) per 28 cards and one cell
    per card and side. *)
Theorem main_two_files (E : env) (fuel : nat) (g : rng) (args : arguments)
    (back_csv t : string) (n : Z) (front back : list string) :
  BACK_CSV args = Some back_csv ->
  back_csv <> "" ->
  int E (opt_wildcards args) = Some n ->
  (- maxsize E - 1 <= n <= maxsize E)%Z ->
  DeckBuilder.load_csv E (FRONT_CSV args) (opt_delimiter args) =
    Return front ->
  DeckBuilder.load_csv E back_csv (opt_delimiter args) = Return back ->
  front <> [] -> back <> [] ->
  drawable front -> drawable back ->
  t <> "*" ->
  (In t front /\ ~ In t back) \/ (In t back /\ ~ In t front) ->
  (Z.of_nat (Nat.max (length front) (length back)) + Z.max 0 n
     <= Z.of_N (capacity E))%Z ->
  output_error E (opt_output args) = None ->
  length front - length back < fuel ->
  length back - length front < fuel ->
  2 * ((Nat.max (length front) (length back) + Z.to_nat n + 27) / 28)
    < fuel ->
  exists body,
    main E fuel g args =
      Some (Return (body ++ [DeckBuilder.output (opt_output args)])) /\
    pages_added body =
      2 * ((Nat.max (length front) (length back) + Z.to_nat n + 27) / 28) /\
    length (cell_texts body) =
      2 * (Nat.max (length front) (length back) + Z.to_nat n).
Proof.
  intros Hback Hname Hint Hn Hf Hb Hfne Hbne Hdf Hdb Hstar Hside Hfit Hout
    Hfuel1 Hfuel2 Hfuel3.
  assert (Hidx : index_sized E n = true).
  { unfold index_sized. apply andb_true_iff. split; apply Z.leb_le; lia. }
  destruct (construct_two_files E fuel g (FRONT_CSV args) (Some back_csv)
              back_csv (opt_delimiter args) front back
              (given_name back_csv Hname) Hf Hb
              ltac:(split; intros; contradiction) Hfuel1 Hfuel2)
    as [g' [f' [b' [mf [mb [Hpf [Hpb [Hmf [Hmb [Hlf [Hlb Hinit]]]]]]]]]]].
  specialize (Hinit n Hidx Hfit).
  set (cards := Nat.max (length front) (length back) + Z.to_nat n) in *.
  set (self := {| DeckBuilder.front_cards :=
                    f' ++ repeat DeckBuilder.wildcard (Z.to_nat n);
                  DeckBuilder.back_cards :=
                    b' ++ repeat DeckBuilder.wildcard (Z.to_nat n) |}) in *.
  assert (Hlenf : length (DeckBuilder.front_cards self) = cards).
  { simpl. now rewrite length_app, repeat_length, Hlf. }
  assert (Hlenb : length (DeckBuilder.back_cards self) = cards).
  { simpl. now rewrite length_app, repeat_length, Hlb. }
  assert (Hdiff : DeckBuilder.front_cards self <> DeckBuilder.back_cards self).
  { simpl. destruct Hside as [[Hin Hnot]|[Hin Hnot]].
    - eapply decks_differ; eauto.
    - intros Heq. symmetry in Heq. revert Heq.
      eapply decks_differ; eauto. }
  assert (Hpc : page_count self = (cards + 27) / 28).
  { unfold page_count. now rewrite Hlenf, Hlenb, Nat.max_id. }
  assert (Htruthy : truthy (DeckBuilder.back_cards self) = true).
  { simpl. destruct b' as [|x l]; [|reflexivity].
    destruct back; [congruence | simpl in Hlb; lia]. }
  unfold main, DeckBuilder.to_int. rewrite Hint, Hback. cbn [bind_run].
  rewrite Hinit. cbn [bind_run snd].
  rewrite (save_interleaves E self (opt_output args) fuel).
  - exists (flat_map (sheet self) (seq 0 (page_count self))).
    split; [reflexivity|].
    destruct (sheets_observed self (seq 0 (page_count self)))
      as [Hcells Hpages].
    destruct (page_count_covers self) as [Hcf Hcb].
    split.
    + rewrite Hpages, Htruthy, length_seq, Hpc. lia.
    + rewrite Hcells, length_flat_map_pair.
      rewrite (pages_cover_all _ _ Hcf), (pages_cover_all _ _ Hcb). lia.
  - now right.
  - apply Forall_app. split; [|apply drawable_wildcards].
    exact (drawable_rearranged front f' mf Hdf Hpf Hmf).
  - apply Forall_app. split; [|apply drawable_wildcards].
    exact (drawable_rearranged back b' mb Hdb Hpb Hmb).
  - exact Hout.
  - rewrite Hpc. exact Hfuel3.
Qed.

Lemma main_two_files_witness :
  exists body,
    main Example.E 3 Example.counter
      {| FRONT_CSV := "front.csv"; BACK_CSV := Some "back.csv";
         opt_wildcards := "2"; opt_delimiter := ",";
         opt_output := "cards.pdf" |} =
      Some (Return (body ++ [DeckBuilder.output "cards.pdf"])) /\
    pages_added body = 2 /\
    length (cell_texts body) = 10.
Proof.
  apply (main_two_files Example.E 3 Example.counter
           {| FRONT_CSV := "front.csv"; BACK_CSV := Some "back.csv";
              opt_wildcards := "2"; opt_delimiter := ",";
              opt_output := "cards.pdf" |}
           "back.csv" "A" 2 ["A"; "A"; "B"] ["x"; "z"]);
    try reflexivity; try discriminate; try (vm_compute; lia);
    try (repeat constructor; fail);
    try (vm_compute; discriminate).
  - simpl. lia.
  - left. split; [simpl; auto|]. simpl. intros [H|[H|H]];
      [discriminate | discriminate | exact H].
Defined.



